(** * chromadb.api.async_fastapi: the asynchronous HTTP client [AsyncFastAPI]

    A shallow embedding of [src/chromadb/api/async_fastapi.py].  Every method
    of the class is a computation in a state-and-exception monad over the
    client's fields, the class-level connection table and the list of
    requests handed to the transport.  The collaborators that live outside
    the file (orjson, httpx, the collection model, ...) are the fields of the
    class [External]. *)

From Stdlib Require Import ZArith NArith String Ascii List Bool Lia.
From stdpp Require Import base gmap list strings pretty sorting.

Local Open Scope Z_scope.

(** ** Python values

    The values that travel through the client as JSON: what [orjson.loads]
    returns and what [orjson.dumps] receives.  A [str] is held as the bytes
    of its UTF-8 encoding.  A [float] is held as its IEEE-754 binary64 bit
    pattern; the client never computes on one.  A [dict] keeps its items in
    insertion order, each key once. *)
#[warnings="-register-all"] Inductive PyVal : Type :=
| PNone
| PBool (b : bool)
| PInt (n : Z)
| PFloat (bits : Z)
| PStr (s : string)
| PList (l : list PyVal)
| PDict (items : list (string * PyVal)).

(** [d[k]] on the items of a dict; [None] is Python's KeyError. *)
Fixpoint dict_lookup (k : string) (items : list (string * PyVal)) : option PyVal :=
  match items with
  | [] => None
  | (k', v) :: rest => if String.eqb k k' then Some v else dict_lookup k rest
  end.

(** [d.get(k, default)]. *)
Definition dict_get (items : list (string * PyVal)) (k : string) (default : PyVal) : PyVal :=
  match dict_lookup k items with
  | Some v => v
  | None => default
  end.

(** [d[k] = v]: an existing key keeps its place, a new key goes last. *)
Fixpoint dict_set (k : string) (v : PyVal) (items : list (string * PyVal))
  : list (string * PyVal) :=
  match items with
  | [] => [(k, v)]
  | (k', v') :: rest =>
      if String.eqb k k' then (k, v) :: rest else (k', v') :: dict_set k v rest
  end.

(** [v == n] for an int [n]: Python compares an int, a bool and a float by
    numeric value, and anything else is unequal to an int. *)
Definition float_bits_minus_one : Z := 0xBFF0000000000000.

Definition py_eq_minus_one (v : PyVal) : bool :=
  match v with
  | PInt n => n =? -1
  | PFloat bits => bits =? float_bits_minus_one
  | _ => false
  end.

(** Truthiness of an [Optional[int]] and of an [Optional[str]]. *)
Definition truthy_int (o : option Z) : bool :=
  match o with
  | Some n => negb (n =? 0)
  | None => false
  end.

Definition truthy_str (o : option string) : bool :=
  match o with
  | Some s => negb (String.eqb s "")
  | None => false
  end.

Definition of_opt {A} (f : A -> PyVal) (o : option A) : PyVal :=
  match o with
  | Some a => f a
  | None => PNone
  end.

Definition of_strs (l : list string) : PyVal := PList (map PStr l).

(** ** Exceptions

    [LifecycleError] is what the running-state check raises, [ValueError] is
    the caller validation error, [RemoteError] carries the status code and
    the text of a non-success response. *)
Inductive Exn : Type :=
| LifecycleError
| ValueError (msg : string)
| KeyError (key : string)
| TypeError
| JSONEncodeError
| JSONDecodeError
| TransportError
| RemoteError (status : Z) (message : string).

Inductive Result (A : Type) : Type :=
| Ok (a : A)
| Raise (e : Exn).
Arguments Ok {A} a.
Arguments Raise {A} e.

(** Sequencing of two steps of which the first may raise. *)
Definition and_then {A B} (r : Result A) (k : A -> Result B) : Result B :=
  match r with
  | Ok a => k a
  | Raise e => Raise e
  end.

(** [v[k]] on a decoded response: KeyError on a dict without the key,
    TypeError on anything that is not a dict. *)
Definition getitem (v : PyVal) (k : string) : Result PyVal :=
  match v with
  | PDict items =>
      match dict_lookup k items with
      | Some x => Ok x
      | None => Raise (KeyError k)
      end
  | _ => Raise TypeError
  end.

(** [v.get(k, default)] on a decoded response; only a dict has [get]. *)
Definition get_or (v : PyVal) (k : string) (default : PyVal) : Result PyVal :=
  match v with
  | PDict items => Ok (dict_get items k default)
  | _ => Raise TypeError
  end.

(** ** urllib.parse.quote

    [quote(path, safe="/")] encodes the path as UTF-8 and replaces every byte
    outside the unreserved set and outside [safe] by [%XX], in upper-case
    hexadecimal. *)
Definition hex_digit (upper : bool) (d : N) : ascii :=
  if (d <? 10)%N then ascii_of_N (48 + d)
  else ascii_of_N ((if upper then 55 else 87) + d).

Definition always_safe (c : ascii) : bool :=
  let n := N_of_ascii c in
  ((65 <=? n) && (n <=? 90) || (97 <=? n) && (n <=? 122) || (48 <=? n) && (n <=? 57)
   || (n =? 95) || (n =? 46) || (n =? 45) || (n =? 126))%N.

Fixpoint mem_ascii (c : ascii) (s : string) : bool :=
  match s with
  | EmptyString => false
  | String c' rest => Ascii.eqb c c' || mem_ascii c rest
  end.

Definition quote_byte (safe : string) (c : ascii) : string :=
  if always_safe c || mem_ascii c safe then String c EmptyString
  else
    let n := N_of_ascii c in
    String "%" (String (hex_digit true (n / 16)) (String (hex_digit true (n mod 16)) EmptyString)).

Fixpoint quote (s : string) (safe : string) : string :=
  match s with
  | EmptyString => EmptyString
  | String c rest => quote_byte safe c +:+ quote rest safe
  end.

(** The reserved characters of a URI (RFC 3986, gen-delims and sub-delims). *)
Definition reserved (c : ascii) : bool := mem_ascii c ":/?#[]@!$&'()*+,;=".

(** ** uuid.UUID

    A UUID is its 128-bit integer; [str] prints it as 32 lower-case
    hexadecimal digits in groups of 8-4-4-4-12. *)
Record UUID : Type := { uuid_int : N }.

Fixpoint hex_lower (digits : nat) (v : N) : string :=
  match digits with
  | O => EmptyString
  | S d => hex_lower d (v / 16) +:+ String (hex_digit false (v mod 16)) EmptyString
  end.

Definition uuid_str (u : UUID) : string :=
  let hex := hex_lower 32 (uuid_int u) in
  substring 0 8 hex +:+ "-" +:+ substring 8 4 hex +:+ "-" +:+ substring 12 4 hex
  +:+ "-" +:+ substring 16 4 hex +:+ "-" +:+ substring 20 12 hex.

(** [str(id)] for an [Optional[UUID]]. *)
Definition str_opt_uuid (id : option UUID) : string :=
  match id with
  | Some u => uuid_str u
  | None => "None"
  end.

(** ** Requests and responses *)

(** An [httpx.AsyncClient], by object identity. *)
Definition Conn : Type := nat.

Definition Params : Type := list (string * PyVal).

Record Request : Type := {
  req_client : Conn;
  req_method : string;
  req_url : string;
  req_params : option Params;
  req_content : option string
}.

Record Response : Type := {
  status_code : Z;
  text : string
}.

(** ** Collaborators outside the file

    What [AsyncFastAPI] imports and calls but does not define: the orjson
    codec, the httpx transport, the collection model of [chromadb.types],
    the configuration object, the numpy conversion and Python's [int].
    [orjson_dumps] and [orjson_loads] are [None] where orjson raises;
    [httpx_request] receives the requests already issued (newest first) and
    the request at hand and is [None] where the transport fails. *)
Class External : Type := {
  Settings : Type;
  CollectionModel : Type;
  CollectionConfigurationInternal : Type;
  Embeddings : Type;
  orjson_dumps : PyVal -> option string;
  orjson_loads : string -> option PyVal;
  httpx_request : list Request -> Request -> option Response;
  from_json : PyVal -> Result CollectionModel;
  to_json : CollectionConfigurationInternal -> PyVal;
  convert_np_embeddings_to_list : Embeddings -> list PyVal;
  py_int : PyVal -> Result Z
}.

(** ** Result shapes of [chromadb.types] and [chromadb.api.types] *)
Record Database : Type := { db_id : PyVal; db_name : PyVal; db_tenant : PyVal }.

Record Tenant : Type := { tenant_name : PyVal }.

Record GetResult : Type := {
  g_ids : PyVal;
  g_embeddings : PyVal;
  g_metadatas : PyVal;
  g_documents : PyVal;
  g_data : PyVal;
  g_uris : PyVal;
  g_included : PyVal
}.

Record QueryResult : Type := {
  q_ids : PyVal;
  q_distances : PyVal;
  q_embeddings : PyVal;
  q_metadatas : PyVal;
  q_documents : PyVal;
  q_uris : PyVal;
  q_data : PyVal;
  q_included : PyVal
}.

(** The batch tuple [(ids, embeddings, metadatas, documents, uris)]. *)
Definition Batch : Type :=
  (list string * option (list PyVal) * option (list PyVal)
   * option (list string) * option (list string))%type.

(** The [GetResult(...)] and [QueryResult(...)] expressions that [_get] and
    [_query] return, on the decoded response and the include list of the
    caller. *)
Definition GetResult_of (resp_json : PyVal) (include : PyVal) : Result GetResult :=
  and_then (getitem resp_json "ids") (fun ids =>
  and_then (get_or resp_json "embeddings" PNone) (fun embeddings =>
  and_then (get_or resp_json "metadatas" PNone) (fun metadatas =>
  and_then (get_or resp_json "documents" PNone) (fun documents =>
  and_then (get_or resp_json "uris" PNone) (fun uris =>
  and_then (get_or resp_json "included" include) (fun included =>
  Ok {| g_ids := ids; g_embeddings := embeddings; g_metadatas := metadatas;
        g_documents := documents; g_data := PNone; g_uris := uris;
        g_included := included |})))))).

Definition QueryResult_of (resp_json : PyVal) (include : PyVal) : Result QueryResult :=
  and_then (getitem resp_json "ids") (fun ids =>
  and_then (get_or resp_json "distances" PNone) (fun distances =>
  and_then (get_or resp_json "embeddings" PNone) (fun embeddings =>
  and_then (get_or resp_json "metadatas" PNone) (fun metadatas =>
  and_then (get_or resp_json "documents" PNone) (fun documents =>
  and_then (get_or resp_json "uris" PNone) (fun uris =>
  and_then (get_or resp_json "included" include) (fun included =>
  Ok {| q_ids := ids; q_distances := distances; q_embeddings := embeddings;
        q_metadatas := metadatas; q_documents := documents; q_uris := uris;
        q_data := PNone; q_included := included |}))))))).

(** Iterating a decoded response: a list yields its elements, a dict its
    keys, a str its characters; the other values are not iterable. *)
Definition is_continuation (c : ascii) : bool :=
  let n := N_of_ascii c in ((128 <=? n) && (n <? 192))%N.

Fixpoint utf8_chars (s : string) : list string :=
  match s with
  | EmptyString => []
  | String c rest =>
      match utf8_chars rest with
      | String c' g :: gs =>
          if is_continuation c' then String c (String c' g) :: gs
          else String c EmptyString :: String c' g :: gs
      | gs => String c EmptyString :: gs
      end
  end.

Definition py_iter (v : PyVal) : Result (list PyVal) :=
  match v with
  | PList l => Ok l
  | PDict items => Ok (map (fun kv => PStr (fst kv)) items)
  | PStr s => Ok (map PStr (utf8_chars s))
  | _ => Raise TypeError
  end.

(** Modelled from the spec: [BaseHTTPClient._clean_params] is not in this
    file; the query of list-collections carries [limit] and [offset] only
    when they are given, so the entries whose value is None are dropped. *)
Definition _clean_params (params : Params) : Params :=
  List.filter (fun kv => match snd kv with PNone => false | _ => true end) params.

(** Modelled from the spec: the length check of the batch validation, which
    is not in this file.  A present optional sequence must be as long as
    [ids], else a validation error names the field, its length and the
    expected length. *)
Definition check_length {A} (field : string) (expected : nat) (o : option (list A))
  : Result unit :=
  match o with
  | Some l =>
      if Nat.eqb (length l) expected then Ok tt
      else Raise (ValueError ("Length of " +:+ field +:+ " is " +:+ pretty (length l)
                              +:+ ", expected " +:+ pretty expected))
  | None => Ok tt
  end.

(** Modelled from the spec: [validate_batch] of [chromadb.api.types] is not
    in this file.  Every present optional sequence must be as long as [ids];
    then the batch size, the number of ids, must not exceed the maximum, an
    integer bound, else a validation error names the attempted size and the
    configured maximum. *)
Definition validate_batch (batch : Batch) (limits : list (string * PyVal)) : Result unit :=
  let '(ids, embeddings, metadatas, documents, uris) := batch in
  let n := length ids in
  and_then (check_length "embeddings" n embeddings) (fun _ =>
  and_then (check_length "metadatas" n metadatas) (fun _ =>
  and_then (check_length "documents" n documents) (fun _ =>
  and_then (check_length "uris" n uris) (fun _ =>
  match dict_lookup "max_batch_size" limits with
  | Some (PInt m) =>
      if Z.of_nat n >? m
      then Raise (ValueError ("Batch size " +:+ pretty n
                              +:+ " exceeds maximum batch size " +:+ pretty m))
      else Ok tt
  | Some _ => Raise TypeError
  | None => Raise (KeyError "max_batch_size")
  end)))).

(** Modelled from the spec: which statuses count as success is decided
    outside this file; the 2xx statuses are taken. *)
Definition is_success (status : Z) : bool := (200 <=? status) && (status <? 300).

(** Modelled from the spec: [BaseHTTPClient._raise_chroma_error] is not in
    this file.  A non-success status raises a typed error carrying the
    status code and the server-supplied message. *)
Definition _raise_chroma_error (response : Response) : Result unit :=
  if is_success (status_code response) then Ok tt
  else Raise (RemoteError (status_code response) (text response)).

(** ** The client *)
Section Client.
Context `{External}.

(** The fields of an [AsyncFastAPI] instance ([_running], [_max_batch_size],
    [_settings], [_api_url]), the class attribute [_clients], and the world
    around it: the hash of the event loop of the caller ([None] where
    [asyncio.get_event_loop] raises RuntimeError), the identity the next
    [httpx.AsyncClient] gets, the clients closed so far and the requests
    handed to the transport, newest first. *)
Record World : Type := {
  _running : bool;
  _max_batch_size : PyVal;
  _settings : Settings;
  _api_url : string;
  _clients : gmap Z Conn;
  event_loop : option Z;
  heap_next : Conn;
  aclosed : list Conn;
  wire : list Request
}.

Definition with_running (b : bool) (w : World) : World :=
  {| _running := b; _max_batch_size := _max_batch_size w; _settings := _settings w;
     _api_url := _api_url w; _clients := _clients w; event_loop := event_loop w;
     heap_next := heap_next w; aclosed := aclosed w; wire := wire w |}.

Definition with_max_batch_size (v : PyVal) (w : World) : World :=
  {| _running := _running w; _max_batch_size := v; _settings := _settings w;
     _api_url := _api_url w; _clients := _clients w; event_loop := event_loop w;
     heap_next := heap_next w; aclosed := aclosed w; wire := wire w |}.

Definition with_clients (m : gmap Z Conn) (w : World) : World :=
  {| _running := _running w; _max_batch_size := _max_batch_size w; _settings := _settings w;
     _api_url := _api_url w; _clients := m; event_loop := event_loop w;
     heap_next := heap_next w; aclosed := aclosed w; wire := wire w |}.

Definition with_event_loop (l : option Z) (w : World) : World :=
  {| _running := _running w; _max_batch_size := _max_batch_size w; _settings := _settings w;
     _api_url := _api_url w; _clients := _clients w; event_loop := l;
     heap_next := heap_next w; aclosed := aclosed w; wire := wire w |}.

Definition with_heap_next (n : Conn) (w : World) : World :=
  {| _running := _running w; _max_batch_size := _max_batch_size w; _settings := _settings w;
     _api_url := _api_url w; _clients := _clients w; event_loop := event_loop w;
     heap_next := n; aclosed := aclosed w; wire := wire w |}.

Definition with_aclosed (l : list Conn) (w : World) : World :=
  {| _running := _running w; _max_batch_size := _max_batch_size w; _settings := _settings w;
     _api_url := _api_url w; _clients := _clients w; event_loop := event_loop w;
     heap_next := heap_next w; aclosed := l; wire := wire w |}.

Definition with_wire (l : list Request) (w : World) : World :=
  {| _running := _running w; _max_batch_size := _max_batch_size w; _settings := _settings w;
     _api_url := _api_url w; _clients := _clients w; event_loop := event_loop w;
     heap_next := heap_next w; aclosed := aclosed w; wire := l |}.

(** *** The monad: state passing with exceptions.  What a method did to the
    world before it raised stays done. *)
Definition M (A : Type) : Type := World -> Result A * World.

Definition ret {A} (a : A) : M A := fun w => (Ok a, w).

Definition raise {A} (e : Exn) : M A := fun w => (Raise e, w).

Definition bind {A B} (m : M A) (k : A -> M B) : M B :=
  fun w =>
    match m w with
    | (Ok a, w') => k a w'
    | (Raise e, w') => (Raise e, w')
    end.

Definition gets {A} (f : World -> A) : M A := fun w => (Ok (f w), w).

Definition modify (f : World -> World) : M unit := fun w => (Ok tt, f w).

Definition lift {A} (r : Result A) : M A := fun w => (r, w).

Notation "x <- m ;; k" := (bind m (fun x => k))
  (at level 100, m at next level, k at level 200, right associativity).
Notation "m ;; k" := (bind m (fun _ => k))
  (at level 100, k at level 200, right associativity).

Fixpoint mapM {A B} (f : A -> M B) (l : list A) : M (list B) :=
  match l with
  | [] => ret []
  | a :: rest => b <- f a ;; bs <- mapM f rest ;; ret (b :: bs)
  end.

(** *** Lifecycle *)

(** Modelled from the spec: [_raise_for_running] is inherited and not in this
    file.  It is the pre-flight check that the client is in a running state
    and fails fast with the lifecycle error if not. *)
Definition _raise_for_running : M unit :=
  running <- gets _running ;;
  if running then ret tt else raise LifecycleError.

(** Modelled from the spec: [Component.start], reached through [super()], is
    not in this file.  It moves the client to the running lifecycle state. *)
Definition Component_start : M unit := modify (with_running true).

(** Modelled from the spec: [Component.stop], reached through [super()], is
    not in this file.  It moves the client to the stopped lifecycle state. *)
Definition Component_stop : M unit := modify (with_running false).

(** [await client.aclose()]. *)
Definition aclose (client : Conn) : M unit :=
  modify (fun w => with_aclosed (client :: aclosed w) w).

(** The order in which [popitem] takes the entries out of the table: last
    in, first out.  An entry goes into the table together with the
    allocation of its client ([_get_client]), so the entry inserted last is
    the one with the newest client. *)
Definition newer (a b : Z * Conn) : Prop := (snd b <= snd a)%nat.

#[global] Instance newer_dec : RelDecision newer :=
  fun a b => decide (snd b <= snd a)%nat.

Definition popitem_order (clients : gmap Z Conn) : list (Z * Conn) :=
  merge_sort newer (map_to_list clients).

(** The loop of [_cleanup]: [popitem] takes an entry out of the table and the
    client is closed, until the table is empty. *)
Fixpoint popitems (items : list (Z * Conn)) : M unit :=
  match items with
  | [] => ret tt
  | (k, client) :: rest =>
      modify (fun w => with_clients (delete k (_clients w)) w) ;;
      aclose client ;;
      popitems rest
  end.

Definition _cleanup : M unit :=
  clients <- gets _clients ;;
  popitems (popitem_order clients).

Definition __aexit__ : M unit := _cleanup.

Definition start : M unit := Component_start.

Definition stop : M unit :=
  Component_stop ;;
  _cleanup.

(** Modelled from the spec: [System.stop] is not in this file; the system
    that owns the client stops its components, here the client itself. *)
Definition System_stop : M unit := stop.

(** *** Connections *)

(** The [try] block of [_get_client]: the hash of the current event loop, or
    0 where there is none. *)
Definition loop_hash_of (loop : option Z) : Z :=
  match loop with
  | Some h => h
  | None => 0
  end.

Definition _get_client : M Conn :=
  loop <- gets event_loop ;;
  let loop_hash := loop_hash_of loop in
  clients <- gets _clients ;;
  (match clients !! loop_hash with
   | Some _ => ret tt
   | None =>
       fresh <- gets heap_next ;;
       modify (fun w => with_clients (<[loop_hash := fresh]> (_clients w))
                          (with_heap_next (S fresh) w))
   end) ;;
  clients <- gets _clients ;;
  match clients !! loop_hash with
  | Some client => ret client
  | None => raise (KeyError (pretty loop_hash))
  end.

Definition __aenter__ : M unit := _get_client ;; ret tt.

(** [await client.request(method, url, **kwargs)]: the request goes on the
    wire and the transport answers or fails. *)
Definition request (client : Conn) (method url : string) (params : option Params)
    (content : option string) : M Response :=
  sent <- gets wire ;;
  let r := {| req_client := client; req_method := method; req_url := url;
              req_params := params; req_content := content |} in
  modify (with_wire (r :: sent)) ;;
  match httpx_request sent r with
  | Some response => ret response
  | None => raise TransportError
  end.

Definition _make_request (method path : string) (json : option PyVal)
    (params : option Params) : M PyVal :=
  content <- match json with
             | Some v =>
                 match orjson_dumps v with
                 | Some data => ret (Some data)
                 | None => raise JSONEncodeError
                 end
             | None => ret None
             end ;;
  let escaped_path := quote path "/" in
  api_url <- gets _api_url ;;
  let url := api_url +:+ escaped_path in
  client <- _get_client ;;
  response <- request client method url params content ;;
  lift (_raise_chroma_error response) ;;
  match orjson_loads (text response) with
  | Some v => ret v
  | None => raise JSONDecodeError
  end.

(** *** Domain operations *)
Definition heartbeat : M Z :=
  _raise_for_running ;;
  response <- _make_request "get" "" None None ;;
  beat <- lift (getitem response "nanosecond heartbeat") ;;
  lift (py_int beat).

Definition create_database (name tenant : string) : M unit :=
  _raise_for_running ;;
  _make_request "post" "/databases"
    (Some (PDict [("name", PStr name)]))
    (Some [("tenant", PStr tenant)]) ;;
  ret tt.

Definition get_database (name tenant : string) : M Database :=
  _raise_for_running ;;
  response <- _make_request "get" ("/databases/" +:+ name) None
                (Some [("tenant", PStr tenant)]) ;;
  id <- lift (getitem response "id") ;;
  nm <- lift (getitem response "name") ;;
  tn <- lift (getitem response "tenant") ;;
  ret {| db_id := id; db_name := nm; db_tenant := tn |}.

Definition create_tenant (name : string) : M unit :=
  _raise_for_running ;;
  _make_request "post" "/tenants" (Some (PDict [("name", PStr name)])) None ;;
  ret tt.

Definition get_tenant (name : string) : M Tenant :=
  _raise_for_running ;;
  resp_json <- _make_request "get" ("/tenants/" +:+ name) None None ;;
  nm <- lift (getitem resp_json "name") ;;
  ret {| tenant_name := nm |}.

Definition list_collections (limit offset : option Z) (tenant database : string)
  : M (list CollectionModel) :=
  _raise_for_running ;;
  resp_json <- _make_request "get" "/collections" None
                 (Some (_clean_params [("tenant", PStr tenant);
                                       ("database", PStr database);
                                       ("limit", of_opt PInt limit);
                                       ("offset", of_opt PInt offset)])) ;;
  json_collections <- lift (py_iter resp_json) ;;
  mapM (fun json_collection => lift (from_json json_collection)) json_collections.

Definition count_collections (tenant database : string) : M PyVal :=
  _raise_for_running ;;
  _make_request "get" "/count_collections" None
    (Some [("tenant", PStr tenant); ("database", PStr database)]).

Definition create_collection (name : string)
    (configuration : option CollectionConfigurationInternal)
    (metadata : option PyVal) (get_or_create : bool) (tenant database : string)
  : M CollectionModel :=
  _raise_for_running ;;
  resp_json <- _make_request "post" "/collections"
                 (Some (PDict [("name", PStr name);
                               ("metadata", of_opt (fun v => v) metadata);
                               ("configuration", of_opt to_json configuration);
                               ("get_or_create", PBool get_or_create)]))
                 (Some [("tenant", PStr tenant); ("database", PStr database)]) ;;
  lift (from_json resp_json).

(** The path is the conditional expression
    [("/collections/" + name) if name else str(id)]: the concatenation binds
    tighter than the conditional. *)
Definition get_collection (name : option string) (id : option UUID)
    (tenant database : string) : M CollectionModel :=
  _raise_for_running ;;
  (match name, id with
   | None, None | Some _, Some _ =>
       raise (ValueError "Name or id must be specified, but not both")
   | _, _ => ret tt
   end) ;;
  let params := [("tenant", PStr tenant); ("database", PStr database)] in
  let params := match id with
                | Some u => dict_set "type" (PStr (uuid_str u)) params
                | None => params
                end in
  resp_json <- _make_request "get"
                 (match name with
                  | Some n =>
                      if truthy_str name then "/collections/" +:+ n else str_opt_uuid id
                  | None => str_opt_uuid id
                  end)
                 None (Some params) ;;
  lift (from_json resp_json).

Definition get_or_create_collection (name : string)
    (configuration : option CollectionConfigurationInternal)
    (metadata : option PyVal) (tenant database : string) : M CollectionModel :=
  _raise_for_running ;;
  create_collection name configuration metadata true tenant database.

Definition _modify (id : UUID) (new_name : option string) (new_metadata : option PyVal)
  : M unit :=
  _raise_for_running ;;
  _make_request "put" ("/collections/" +:+ uuid_str id)
    (Some (PDict [("new_metadata", of_opt (fun v => v) new_metadata);
                  ("new_name", of_opt PStr new_name)]))
    None ;;
  ret tt.

Definition delete_collection (name tenant database : string) : M unit :=
  _raise_for_running ;;
  _make_request "delete" ("/collections/" +:+ name) None
    (Some [("tenant", PStr tenant); ("database", PStr database)]) ;;
  ret tt.

Definition _count (collection_id : UUID) : M PyVal :=
  _raise_for_running ;;
  _make_request "get" ("/collections/" +:+ uuid_str collection_id +:+ "/count") None None.

(** The body of the get request and the result built from the response. *)
Definition _get_json (ids : option (list string)) (where_ : PyVal) (sort : option string)
    (limit offset : option Z) (where_document : PyVal) (include : list string) : PyVal :=
  PDict [("ids", of_opt of_strs ids);
         ("where", where_);
         ("sort", of_opt PStr sort);
         ("limit", of_opt PInt limit);
         ("offset", of_opt PInt offset);
         ("where_document", where_document);
         ("include", of_strs include)].

(** The [if page and page_size:] block of [_get]: the pair (offset, limit)
    after it. *)
Definition _get_paging (limit offset page page_size : option Z) : option Z * option Z :=
  match page, page_size with
  | Some p, Some ps =>
      if truthy_int page && truthy_int page_size
      then (Some ((p - 1) * ps), Some ps)
      else (offset, limit)
  | _, _ => (offset, limit)
  end.

Definition _get (collection_id : UUID) (ids : option (list string)) (where_ : PyVal)
    (sort : option string) (limit offset page page_size : option Z)
    (where_document : PyVal) (include : list string) : M GetResult :=
  _raise_for_running ;;
  let '(offset, limit) := _get_paging limit offset page page_size in
  resp_json <- _make_request "post" ("/collections/" +:+ uuid_str collection_id +:+ "/get")
                 (Some (_get_json ids where_ sort limit offset where_document include))
                 None ;;
  lift (GetResult_of resp_json (of_strs include)).

Definition _peek (collection_id : UUID) (n : Z) : M GetResult :=
  _raise_for_running ;;
  _get collection_id None (PDict []) None (Some n) None None None (PDict [])
    ["embeddings"; "documents"; "metadatas"].

Definition _delete (collection_id : UUID) (ids : option (list string))
    (where_ where_document : PyVal) : M unit :=
  _raise_for_running ;;
  _make_request "post" ("/collections/" +:+ uuid_str collection_id +:+ "/delete")
    (Some (PDict [("where", where_);
                  ("ids", of_opt of_strs ids);
                  ("where_document", where_document)]))
    None ;;
  ret tt.

Definition get_max_batch_size : M PyVal :=
  _raise_for_running ;;
  cached <- gets _max_batch_size ;;
  (if py_eq_minus_one cached then
     resp_json <- _make_request "get" "/pre-flight-checks" None None ;;
     v <- lift (getitem resp_json "max_batch_size") ;;
     modify (with_max_batch_size v)
   else ret tt) ;;
  gets _max_batch_size.

Definition _submit_batch (batch : Batch) (url : string) : M PyVal :=
  _raise_for_running ;;
  let '(ids, embeddings, metadatas, documents, uris) := batch in
  _make_request "post" url
    (Some (PDict [("ids", of_strs ids);
                  ("embeddings", of_opt PList embeddings);
                  ("metadatas", of_opt PList metadatas);
                  ("documents", of_opt of_strs documents);
                  ("uris", of_opt of_strs uris)]))
    None.

Definition _add (ids : list string) (collection_id : UUID) (embeddings : Embeddings)
    (metadatas : option (list PyVal)) (documents uris : option (list string)) : M bool :=
  _raise_for_running ;;
  let batch : Batch :=
    (ids, Some (convert_np_embeddings_to_list embeddings), metadatas, documents, uris) in
  max_batch_size <- get_max_batch_size ;;
  lift (validate_batch batch [("max_batch_size", max_batch_size)]) ;;
  _submit_batch batch ("/collections/" +:+ uuid_str collection_id +:+ "/add") ;;
  ret true.

Definition _update (collection_id : UUID) (ids : list string)
    (embeddings : option Embeddings) (metadatas : option (list PyVal))
    (documents uris : option (list string)) : M bool :=
  _raise_for_running ;;
  let batch : Batch :=
    (ids,
     match embeddings with
     | Some e => Some (convert_np_embeddings_to_list e)
     | None => None
     end,
     metadatas, documents, uris) in
  max_batch_size <- get_max_batch_size ;;
  lift (validate_batch batch [("max_batch_size", max_batch_size)]) ;;
  _submit_batch batch ("/collections/" +:+ uuid_str collection_id +:+ "/update") ;;
  ret true.

Definition _upsert (collection_id : UUID) (ids : list string) (embeddings : Embeddings)
    (metadatas : option (list PyVal)) (documents uris : option (list string)) : M bool :=
  _raise_for_running ;;
  let batch : Batch :=
    (ids, Some (convert_np_embeddings_to_list embeddings), metadatas, documents, uris) in
  max_batch_size <- get_max_batch_size ;;
  lift (validate_batch batch [("max_batch_size", max_batch_size)]) ;;
  _submit_batch batch ("/collections/" +:+ uuid_str collection_id +:+ "/upsert") ;;
  ret true.

Definition _query_json (query_embeddings : option Embeddings) (n_results : Z)
    (where_ where_document : PyVal) (include : list string) : PyVal :=
  PDict [("query_embeddings",
          of_opt (fun e => PList (convert_np_embeddings_to_list e)) query_embeddings);
         ("n_results", PInt n_results);
         ("where", where_);
         ("where_document", where_document);
         ("include", of_strs include)].

Definition _query (collection_id : UUID) (query_embeddings : option Embeddings)
    (n_results : Z) (where_ where_document : PyVal) (include : list string)
  : M QueryResult :=
  _raise_for_running ;;
  resp_json <- _make_request "post"
                 ("/collections/" +:+ uuid_str collection_id +:+ "/query")
                 (Some (_query_json query_embeddings n_results where_ where_document
                          include))
                 None ;;
  lift (QueryResult_of resp_json (of_strs include)).

Definition reset : M PyVal :=
  _raise_for_running ;;
  _make_request "post" "/reset" None None.

Definition get_version : M PyVal :=
  _raise_for_running ;;
  _make_request "get" "/version" None None.

Definition get_settings : M Settings := gets _settings.

Definition close : M unit :=
  _cleanup ;;
  stop ;;
  System_stop.

End Client.

Notation "x <- m ;; k" := (bind m (fun x => k))
  (at level 100, m at next level, k at level 200, right associativity).
Notation "m ;; k" := (bind m (fun _ => k))
  (at level 100, k at level 200, right associativity).

(** ** Vocabulary of the statements *)
Section Vocabulary.
Context `{External}.

(** The connection [_get_client] hands out in [w], the request
    [_make_request] puts on the wire, and the world once it is sent. *)
Definition client_of (w : World) : Conn :=
  match _clients w !! loop_hash_of (event_loop w) with
  | Some client => client
  | None => heap_next w
  end.

Definition the_request (w : World) (method path : string) (params : option Params)
    (content : option string) : Request :=
  {| req_client := client_of w; req_method := method;
     req_url := _api_url w +:+ quote path "/";
     req_params := params; req_content := content |}.

Definition after_request (r : Request) (w : World) : World :=
  with_wire (r :: wire w) (snd (_get_client w)).

(** The server answers the request with a success status and a body that
    decodes to [v]. *)
Definition replies (w : World) (method path : string) (params : option Params)
    (content : option string) (v : PyVal) : Prop :=
  exists response,
    httpx_request (wire w) (the_request w method path params content) = Some response
    /\ is_success (status_code response) = true
    /\ orjson_loads (text response) = Some v.

(** What [_make_request] makes of the [json] argument ([None] where orjson
    raises) and of the answer of the transport. *)
Definition encoded (json : option PyVal) : option (option string) :=
  match json with
  | Some v =>
      match orjson_dumps v with
      | Some data => Some (Some data)
      | None => None
      end
  | None => Some None
  end.

Definition outcome (w : World) (r : Request) : Result PyVal :=
  match httpx_request (wire w) r with
  | Some response =>
      if is_success (status_code response) then
        match orjson_loads (text response) with
        | Some v => Ok v
        | None => Raise JSONDecodeError
        end
      else Raise (RemoteError (status_code response) (text response))
  | None => Raise TransportError
  end.

(** A field of a result read off the response: the value under the key when
    the key is there, the default when it is missing. *)
Definition marshalled (items : list (string * PyVal)) (k : string) (default field : PyVal)
  : Prop :=
  (forall v, dict_lookup k items = Some v -> field = v)
  /\ (dict_lookup k items = None -> field = default).

(** The three bulk mutations, as calls. *)
Inductive BatchCall : Type :=
| CallAdd (ids : list string) (collection_id : UUID) (embeddings : Embeddings)
    (metadatas : option (list PyVal)) (documents uris : option (list string))
| CallUpdate (collection_id : UUID) (ids : list string) (embeddings : option Embeddings)
    (metadatas : option (list PyVal)) (documents uris : option (list string))
| CallUpsert (collection_id : UUID) (ids : list string) (embeddings : Embeddings)
    (metadatas : option (list PyVal)) (documents uris : option (list string)).

Definition call_ids (c : BatchCall) : list string :=
  match c with
  | CallAdd ids _ _ _ _ _ => ids
  | CallUpdate _ ids _ _ _ _ => ids
  | CallUpsert _ ids _ _ _ _ => ids
  end.

Definition invoke (c : BatchCall) : M bool :=
  match c with
  | CallAdd ids collection_id embeddings metadatas documents uris =>
      _add ids collection_id embeddings metadatas documents uris
  | CallUpdate collection_id ids embeddings metadatas documents uris =>
      _update collection_id ids embeddings metadatas documents uris
  | CallUpsert collection_id ids embeddings metadatas documents uris =>
      _upsert collection_id ids embeddings metadatas documents uris
  end.

(** An operation fails fast: the lifecycle error, and the world untouched. *)
Definition fails_fast {A} (m : M A) (w : World) : Prop :=
  m w = (Raise LifecycleError, w).

(** [n] calls of [get_max_batch_size] in a row, an exception of one call
    being caught before the next. *)
Fixpoint calls (n : nat) (w : World) : list (Result PyVal) * World :=
  match n with
  | O => ([], w)
  | S n' =>
      let '(r, w1) := get_max_batch_size w in
      let '(rs, w2) := calls n' w1 in
      (r :: rs, w2)
  end.

(** Acquisitions of a connection from given execution contexts, and shutdowns
    of the table in between. *)
Inductive Event : Type :=
| Acquire (loop : option Z)
| Shutdown.

Definition acquire (loop : option Z) : M Conn :=
  modify (with_event_loop loop) ;;
  _get_client.

Definition step (w : World) (e : Event) : World :=
  match e with
  | Acquire loop => snd (acquire loop w)
  | Shutdown => snd (_cleanup w)
  end.

Definition run (events : list Event) (w : World) : World := fold_left step events w.

Definition is_shutdown (e : Event) : bool :=
  match e with
  | Shutdown => true
  | Acquire _ => false
  end.

(** The table maps distinct keys to distinct connections, all of them
    allocated before [heap_next]. *)
Definition registry_ok (w : World) : Prop :=
  (forall k c, _clients w !! k = Some c -> (c < heap_next w)%nat)
  /\ (forall k1 k2 c, _clients w !! k1 = Some c -> _clients w !! k2 = Some c -> k1 = k2).

End Vocabulary.

(** ** A scripted server

    A stand-in for the collaborators: the server answers the i-th request
    with the i-th entry of a script (a status and a value) and the transport
    fails once the script is used up; the codec writes a value as compact
    JSON text and reads back the texts of the script. *)
Module Stub.

Definition dq : string := String "034"%char EmptyString.

Fixpoint render (v : PyVal) : string :=
  match v with
  | PNone => "null"
  | PBool true => "true"
  | PBool false => "false"
  | PInt n => pretty n
  | PFloat bits => "float:" +:+ pretty bits
  | PStr s => dq +:+ s +:+ dq
  | PList l =>
      "[" +:+ (fix elements (l : list PyVal) : string :=
                 match l with
                 | [] => ""
                 | x :: rest =>
                     render x +:+ (match rest with [] => "" | _ => "," end)
                     +:+ elements rest
                 end) l +:+ "]"
  | PDict items =>
      "{" +:+ (fix members (l : list (string * PyVal)) : string :=
                 match l with
                 | [] => ""
                 | (k, x) :: rest =>
                     dq +:+ k +:+ dq +:+ ":" +:+ render x
                     +:+ (match rest with [] => "" | _ => "," end)
                     +:+ members rest
                 end) items +:+ "}"
  end.

Definition Script : Type := list (Z * PyVal).

Definition answer (script : Script) (sent : list Request) (r : Request) : option Response :=
  match nth_error script (length sent) with
  | Some (status, v) => Some {| status_code := status; text := render v |}
  | None => None
  end.

Definition read (script : Script) (text : string) : option PyVal :=
  match find (fun entry => String.eqb (render (snd entry)) text) script with
  | Some (_, v) => Some v
  | None => None
  end.

Definition external (script : Script) : External :=
  {| Settings := string;
     CollectionModel := PyVal;
     CollectionConfigurationInternal := PyVal;
     Embeddings := list PyVal;
     orjson_dumps := fun v => Some (render v);
     orjson_loads := read script;
     httpx_request := answer script;
     from_json := fun v => Ok v;
     to_json := fun v => v;
     convert_np_embeddings_to_list := fun e => e;
     py_int := fun v => match v with PInt n => Ok n | _ => Raise TypeError end |}.

(** The world after [__init__] and [start], seen from event loop 7. *)
Definition world (script : Script) : @World (external script) :=
  @Build_World (external script)
    true                              (* _running *)
    (PInt (-1))                       (* _max_batch_size *)
    "chroma_server_host=localhost"    (* _settings *)
    "http://localhost:8000/api/v1"    (* _api_url *)
    ∅                                 (* _clients *)
    (Some 7)                          (* event_loop *)
    O                                 (* heap_next *)
    []                                (* aclosed *)
    [].                               (* wire *)

Definition some_id : UUID := {| uuid_int := 42 |}.

End Stub.

(** ** Whole operations and sessions *)
Section Sessions.
Context `{External}.

(** The public operations of the client, as calls. *)
Inductive Operation : Type :=
| Heartbeat
| CreateDatabase (name tenant : string)
| GetDatabase (name tenant : string)
| CreateTenant (name : string)
| GetTenant (name : string)
| ListCollections (limit offset : option Z) (tenant database : string)
| CountCollections (tenant database : string)
| CreateCollection (name : string)
    (configuration : option CollectionConfigurationInternal) (metadata : option PyVal)
    (get_or_create : bool) (tenant database : string)
| GetCollection (name : option string) (id : option UUID) (tenant database : string)
| GetOrCreateCollection (name : string)
    (configuration : option CollectionConfigurationInternal) (metadata : option PyVal)
    (tenant database : string)
| Modify (id : UUID) (new_name : option string) (new_metadata : option PyVal)
| DeleteCollection (name tenant database : string)
| Count (collection_id : UUID)
| Peek (collection_id : UUID) (n : Z)
| Get (collection_id : UUID) (ids : option (list string)) (where_ : PyVal)
    (sort : option string) (limit offset page page_size : option Z)
    (where_document : PyVal) (include : list string)
| Delete (collection_id : UUID) (ids : option (list string)) (where_ where_document : PyVal)
| SubmitBatch (batch : Batch) (url : string)
| Mutate (c : BatchCall)
| Query (collection_id : UUID) (query_embeddings : option Embeddings) (n_results : Z)
    (where_ where_document : PyVal) (include : list string)
| Reset
| GetVersion
| GetMaxBatchSize
| GetSettings.

(** An operation run for what it does to the world, its result dropped. *)
Definition perform (op : Operation) : M unit :=
  match op with
  | Heartbeat => heartbeat ;; ret tt
  | CreateDatabase name tenant => create_database name tenant
  | GetDatabase name tenant => get_database name tenant ;; ret tt
  | CreateTenant name => create_tenant name
  | GetTenant name => get_tenant name ;; ret tt
  | ListCollections limit offset tenant database =>
      list_collections limit offset tenant database ;; ret tt
  | CountCollections tenant database => count_collections tenant database ;; ret tt
  | CreateCollection name configuration metadata get_or_create tenant database =>
      create_collection name configuration metadata get_or_create tenant database ;; ret tt
  | GetCollection name id tenant database =>
      get_collection name id tenant database ;; ret tt
  | GetOrCreateCollection name configuration metadata tenant database =>
      get_or_create_collection name configuration metadata tenant database ;; ret tt
  | Modify id new_name new_metadata => _modify id new_name new_metadata
  | DeleteCollection name tenant database => delete_collection name tenant database
  | Count collection_id => _count collection_id ;; ret tt
  | Peek collection_id n => _peek collection_id n ;; ret tt
  | Get collection_id ids where_ sort limit offset page page_size where_document include =>
      _get collection_id ids where_ sort limit offset page page_size where_document include ;;
      ret tt
  | Delete collection_id ids where_ where_document =>
      _delete collection_id ids where_ where_document
  | SubmitBatch batch url => _submit_batch batch url ;; ret tt
  | Mutate c => invoke c ;; ret tt
  | Query collection_id query_embeddings n_results where_ where_document include =>
      _query collection_id query_embeddings n_results where_ where_document include ;;
      ret tt
  | Reset => reset ;; ret tt
  | GetVersion => get_version ;; ret tt
  | GetMaxBatchSize => get_max_batch_size ;; ret tt
  | GetSettings => get_settings ;; ret tt
  end.

(** The most requests one call of the operation puts on the wire. *)
Definition budget (op : Operation) : nat :=
  match op with
  | Mutate _ => 2
  | GetSettings => 0
  | _ => 1
  end.

(** Operations one after the other, the exception of one being caught before
    the next. *)
Fixpoint session (ops : list Operation) (w : World) : World :=
  match ops with
  | [] => w
  | op :: rest => session rest (snd (perform op w))
  end.

Fixpoint session_budget (ops : list Operation) : nat :=
  match ops with
  | [] => O
  | op :: rest => (budget op + session_budget rest)%nat
  end.

(** The connection table with the allocator. *)
Definition registry (w : World) : gmap Z Conn * Conn := (_clients w, heap_next w).

(** [w'] is [w] seen later from the same execution context, with no
    shutdown in between: lifecycle state, settings, base URL, event loop and
    closed connections are the same, and the table is the one of [w] or the
    one of [w] after [_get_client]. *)
Definition same_context (w w' : World) : Prop :=
  _running w' = _running w /\ _settings w' = _settings w /\ _api_url w' = _api_url w
  /\ event_loop w' = event_loop w /\ aclosed w' = aclosed w
  /\ (registry w' = registry w \/ registry w' = registry (snd (_get_client w))).

(** Between [w] and [w'] at most [n] requests went on the wire, none was
    taken off it, and each new one went over the connection of the context
    of [w] to the base URL followed by a percent-encoded path. *)
Definition sends (n : nat) (w w' : World) : Prop :=
  exists new,
    wire w' = new ++ wire w /\ (length new <= n)%nat
    /\ Forall (fun r => req_client r = client_of w
                        /\ exists path, req_url r = _api_url w +:+ quote path "/") new.

Definition behaves {A} (n : nat) (m : M A) : Prop :=
  forall w, same_context w (snd (m w)) /\ sends n w (snd (m w)).

(** The bookkeeping of connections: the table is sound, every closed
    connection was allocated and is closed once, no connection of the table
    is closed, and every allocated connection is in the table or closed. *)
Definition conn_ok (w : World) : Prop :=
  registry_ok w
  /\ (forall c, In c (aclosed w) -> (c < heap_next w)%nat)
  /\ List.NoDup (aclosed w)
  /\ (forall k c, _clients w !! k = Some c -> ~ In c (aclosed w))
  /\ (forall c, (c < heap_next w)%nat ->
        In c (aclosed w) \/ exists k, _clients w !! k = Some c).

(** The batch tuple and the path that [_add], [_update] and [_upsert] build
    from their arguments. *)
Definition batch_of (c : BatchCall) : Batch :=
  match c with
  | CallAdd ids _ embeddings metadatas documents uris =>
      (ids, Some (convert_np_embeddings_to_list embeddings), metadatas, documents, uris)
  | CallUpdate _ ids embeddings metadatas documents uris =>
      (ids,
       match embeddings with
       | Some e => Some (convert_np_embeddings_to_list e)
       | None => None
       end,
       metadatas, documents, uris)
  | CallUpsert _ ids embeddings metadatas documents uris =>
      (ids, Some (convert_np_embeddings_to_list embeddings), metadatas, documents, uris)
  end.

Definition submit_path (c : BatchCall) : string :=
  match c with
  | CallAdd _ collection_id _ _ _ _ => "/collections/" +:+ uuid_str collection_id +:+ "/add"
  | CallUpdate collection_id _ _ _ _ _ =>
      "/collections/" +:+ uuid_str collection_id +:+ "/update"
  | CallUpsert collection_id _ _ _ _ _ =>
      "/collections/" +:+ uuid_str collection_id +:+ "/upsert"
  end.

(** The body [_submit_batch] hands to the dispatch. *)
Definition batch_json (batch : Batch) : PyVal :=
  let '(ids, embeddings, metadatas, documents, uris) := batch in
  PDict [("ids", of_strs ids);
         ("embeddings", of_opt PList embeddings);
         ("metadatas", of_opt PList metadatas);
         ("documents", of_opt of_strs documents);
         ("uris", of_opt of_strs uris)].

(** A request that fetches the maximum batch size: a GET to the pre-flight
    endpoint of the client. *)
Definition is_fetch (w : World) (r : Request) : Prop :=
  req_method r = "get" /\ req_url r = _api_url w +:+ "/pre-flight-checks".

(** With a maximum in the cache, the computation leaves the cache and the
    base URL as they are and sends no request that fetches the maximum. *)
Definition keeps_cache {A} (m : M A) : Prop :=
  forall w,
    py_eq_minus_one (_max_batch_size w) = false ->
    _max_batch_size (snd (m w)) = _max_batch_size w
    /\ _api_url (snd (m w)) = _api_url w
    /\ exists new, wire (snd (m w)) = new ++ wire w /\ Forall (fun r => ~ is_fetch w r) new.

(** Decoding of a percent-encoded path, the inverse of [quote]. *)
Definition hex_value (c : ascii) : N :=
  let n := N_of_ascii c in
  if (n <? 58)%N then (n - 48)%N else (n - 55)%N.

Fixpoint unquote (s : string) : string :=
  match s with
  | EmptyString => EmptyString
  | String c rest =>
      if Ascii.eqb c "%" then
        match rest with
        | String h (String l rest') =>
            String (ascii_of_N (16 * hex_value h + hex_value l)) (unquote rest')
        | _ => String c (unquote rest)
        end
      else String c (unquote rest)
  end.

End Sessions.

(** * Properties *)
Section Properties.
Context `{External}.

(** ** The monad and the dispatch path *)

Lemma get_client_eq (w : World) :
  _get_client w =
  match _clients w !! loop_hash_of (event_loop w) with
  | Some client => (Ok client, w)
  | None =>
      (Ok (heap_next w),
       with_clients (<[loop_hash_of (event_loop w) := heap_next w]> (_clients w))
         (with_heap_next (S (heap_next w)) w))
  end.
Proof.
  unfold _get_client, bind, gets, modify, ret, raise; simpl.
  destruct (_clients w !! loop_hash_of (event_loop w)) as [c|] eqn:E; simpl.
  - now rewrite E.
  - now rewrite lookup_insert_eq.
Qed.

Lemma get_client_fst (w : World) : fst (_get_client w) = Ok (client_of w).
Proof.
  rewrite get_client_eq. unfold client_of.
  now destruct (_clients w !! loop_hash_of (event_loop w)).
Qed.

Lemma get_client_frame (w : World) :
  let w' := snd (_get_client w) in
  _running w' = _running w /\ _max_batch_size w' = _max_batch_size w
  /\ _settings w' = _settings w /\ _api_url w' = _api_url w
  /\ event_loop w' = event_loop w /\ aclosed w' = aclosed w /\ wire w' = wire w.
Proof.
  rewrite get_client_eq.
  now destruct (_clients w !! loop_hash_of (event_loop w)).
Qed.

Lemma after_request_frame (r : Request) (w : World) :
  let w' := after_request r w in
  _running w' = _running w /\ _max_batch_size w' = _max_batch_size w
  /\ _settings w' = _settings w /\ _api_url w' = _api_url w
  /\ event_loop w' = event_loop w /\ aclosed w' = aclosed w /\ wire w' = r :: wire w.
Proof.
  unfold after_request; simpl.
  destruct (get_client_frame w) as (? & ? & ? & ? & ? & ? & ?).
  repeat split; assumption.
Qed.

(** [_make_request] in one equation: nothing is sent when the body does not
    serialize; otherwise exactly the request [the_request] goes on the wire,
    whatever the transport and the server then answer. *)
Lemma make_request_eq (method path : string) (json : option PyVal)
    (params : option Params) (w : World) :
  _make_request method path json params w =
  match encoded json with
  | Some content =>
      let r := the_request w method path params content in
      (outcome w r, after_request r w)
  | None => (Raise JSONEncodeError, w)
  end.
Proof.
  assert (E : forall content,
    (api_url <- gets _api_url ;;
     client <- _get_client ;;
     response <- request client method (api_url +:+ quote path "/") params content ;;
     lift (_raise_chroma_error response) ;;
     match orjson_loads (text response) with
     | Some v => ret v
     | None => raise JSONDecodeError
     end) w
    = (outcome w (the_request w method path params content),
       after_request (the_request w method path params content) w)).
  { intros content.
    unfold bind at 1 2. unfold gets at 1. cbn [fst snd].
    pose proof (get_client_fst w) as Hc.
    destruct (get_client_frame w) as (_ & _ & _ & _ & _ & _ & Hw).
    unfold after_request, outcome, the_request.
    destruct (_get_client w) as [rc w1]. cbn [fst snd] in *. subst rc.
    unfold request, bind, gets, modify, lift, ret, raise, _raise_chroma_error.
    cbn [fst snd]. rewrite Hw.
    destruct (httpx_request _ _) as [resp|]; [|reflexivity].
    destruct (is_success _); [|reflexivity].
    now destruct (orjson_loads _). }
  unfold _make_request, encoded.
  destruct json as [v|].
  - destruct (orjson_dumps v) as [data|].
    + unfold bind at 1. unfold ret at 1. apply E.
    + reflexivity.
  - unfold bind at 1. unfold ret at 1. apply E.
Qed.

Lemma replies_outcome (w : World) (method path : string) (params : option Params)
    (content : option string) (v : PyVal) :
  replies w method path params content v ->
  outcome w (the_request w method path params content) = Ok v.
Proof.
  intros (resp & Hr & Hs & Hl). unfold outcome. now rewrite Hr, Hs, Hl.
Qed.

Lemma raise_for_running_running (w : World) :
  _running w = true -> _raise_for_running w = (Ok tt, w).
Proof. intros Hr. unfold _raise_for_running, bind, gets, ret. simpl. now rewrite Hr. Qed.

Lemma raise_for_running_stopped (w : World) :
  _running w = false -> _raise_for_running w = (Raise LifecycleError, w).
Proof. intros Hr. unfold _raise_for_running, bind, gets, raise. simpl. now rewrite Hr. Qed.

Lemma gate_stopped {A} (k : M A) (w : World) :
  _running w = false -> fails_fast (_raise_for_running ;; k) w.
Proof.
  intros Hr. unfold fails_fast, bind. now rewrite raise_for_running_stopped.
Qed.

Lemma gate_running {A} (k : M A) (w : World) :
  _running w = true -> (_raise_for_running ;; k) w = k w.
Proof.
  intros Hr. unfold bind. now rewrite raise_for_running_running.
Qed.

(** ** Shutdown *)

Lemma lookup_foldl_delete (items : list (Z * Conn)) (m : gmap Z Conn) (k : Z) (c : Conn) :
  foldl (fun m kv => delete (fst kv) m) m items !! k = Some c ->
  m !! k = Some c /\ ~ In k (map fst items).
Proof.
  revert m. induction items as [|[k' c'] rest IH]; intros m Hl; simpl in *.
  - split; [assumption | tauto].
  - apply IH in Hl as [Hl Hn].
    destruct (decide (k' = k)) as [->|Hne].
    + now rewrite lookup_delete_eq in Hl.
    + rewrite lookup_delete_ne in Hl by assumption. split; [assumption | tauto].
Qed.

Lemma popitem_order_elem (m : gmap Z Conn) (k : Z) (c : Conn) :
  In (k, c) (popitem_order m) <-> m !! k = Some c.
Proof.
  rewrite <- list_elem_of_In. unfold popitem_order.
  rewrite merge_sort_Permutation. apply elem_of_map_to_list.
Qed.

Lemma popitem_order_empty : popitem_order (∅ : gmap Z Conn) = [].
Proof. unfold popitem_order. now rewrite map_to_list_empty. Qed.

Lemma foldl_delete_all (m : gmap Z Conn) :
  foldl (fun m kv => delete (fst kv) m) m (popitem_order m) = ∅.
Proof.
  apply map_eq. intros k. rewrite lookup_empty.
  destruct (foldl _ _ _ !! k) as [c|] eqn:E; [|reflexivity].
  apply lookup_foldl_delete in E as [Hl Hn]. exfalso. apply Hn.
  apply popitem_order_elem in Hl.
  change k with (fst (k, c)). now apply in_map.
Qed.

Lemma popitems_eq (items : list (Z * Conn)) (w : World) :
  popitems items w =
  (Ok tt,
   with_clients (foldl (fun m kv => delete (fst kv) m) (_clients w) items)
     (with_aclosed (rev (map snd items) ++ aclosed w) w)).
Proof.
  revert w. induction items as [|[k c] rest IH]; intros w.
  - destruct w; reflexivity.
  - cbn [popitems]. unfold bind at 1 2, modify at 1, aclose, modify.
    rewrite IH. unfold with_clients, with_aclosed. cbn.
    now rewrite <- app_assoc.
Qed.

(** [_cleanup] closes every connection of the table and leaves it empty. *)
Lemma cleanup_eq (w : World) :
  _cleanup w =
  (Ok tt,
   with_clients ∅
     (with_aclosed (rev (map snd (popitem_order (_clients w))) ++ aclosed w) w)).
Proof.
  unfold _cleanup, bind, gets. cbn [fst snd].
  now rewrite popitems_eq, foldl_delete_all.
Qed.

Lemma close_eq (w : World) :
  close w = (Ok tt, with_running false (snd (_cleanup w))).
Proof.
  unfold close, System_stop, stop, Component_stop, bind, modify.
  rewrite cleanup_eq. cbn [snd]. rewrite cleanup_eq, cleanup_eq.
  cbn [snd with_clients with_aclosed with_running _clients aclosed].
  rewrite !popitem_order_empty. reflexivity.
Qed.

Lemma close_frame (w : World) :
  let w' := snd (close w) in
  fst (close w) = Ok tt /\ _running w' = false /\ _clients w' = ∅
  /\ _settings w' = _settings w /\ wire w' = wire w.
Proof. rewrite close_eq, cleanup_eq. cbn. repeat split. Qed.

(** ** Lifecycle gate *)

(** C6: once [close] has completed the client is stopped, and every domain
    operation invoked from then on raises the lifecycle error out of the
    running-state check: it issues no request and leaves the world, the wire
    included, as it was. *)
Theorem operations_after_close_fail_fast (w : World) :
  let w' := snd (close w) in
  fst (close w) = Ok tt
  /\ _running w' = false
  /\ fails_fast heartbeat w'
  /\ (forall name tenant, fails_fast (create_database name tenant) w')
  /\ (forall name tenant, fails_fast (get_database name tenant) w')
  /\ (forall name, fails_fast (create_tenant name) w')
  /\ (forall name, fails_fast (get_tenant name) w')
  /\ (forall limit offset tenant database,
        fails_fast (list_collections limit offset tenant database) w')
  /\ (forall tenant database, fails_fast (count_collections tenant database) w')
  /\ (forall name configuration metadata get_or_create tenant database,
        fails_fast
          (create_collection name configuration metadata get_or_create tenant database) w')
  /\ (forall name id tenant database, fails_fast (get_collection name id tenant database) w')
  /\ (forall name configuration metadata tenant database,
        fails_fast (get_or_create_collection name configuration metadata tenant database) w')
  /\ (forall id new_name new_metadata, fails_fast (_modify id new_name new_metadata) w')
  /\ (forall name tenant database, fails_fast (delete_collection name tenant database) w')
  /\ (forall collection_id, fails_fast (_count collection_id) w')
  /\ (forall collection_id n, fails_fast (_peek collection_id n) w')
  /\ (forall collection_id ids where_ sort limit offset page page_size where_document include,
        fails_fast
          (_get collection_id ids where_ sort limit offset page page_size where_document
             include) w')
  /\ (forall collection_id ids where_ where_document,
        fails_fast (_delete collection_id ids where_ where_document) w')
  /\ (forall batch url, fails_fast (_submit_batch batch url) w')
  /\ (forall ids collection_id embeddings metadatas documents uris,
        fails_fast (_add ids collection_id embeddings metadatas documents uris) w')
  /\ (forall collection_id ids embeddings metadatas documents uris,
        fails_fast (_update collection_id ids embeddings metadatas documents uris) w')
  /\ (forall collection_id ids embeddings metadatas documents uris,
        fails_fast (_upsert collection_id ids embeddings metadatas documents uris) w')
  /\ (forall collection_id query_embeddings n_results where_ where_document include,
        fails_fast
          (_query collection_id query_embeddings n_results where_ where_document include) w')
  /\ fails_fast reset w'
  /\ fails_fast get_version w'
  /\ fails_fast get_max_batch_size w'.
Proof.
  destruct (close_frame w) as (Hok & Hstop & _).
  cbn zeta. split; [exact Hok|]. split; [exact Hstop|].
  repeat split; intros; apply gate_stopped; exact Hstop.
Qed.

(** C10: [get_settings] has no running-state check.  In every world it
    returns the stored settings, raises nothing and leaves the world, the
    wire included, as it was; so it does on a client that [close] has
    stopped, where it still returns the settings the client was built with. *)
Theorem get_settings_is_not_gated (w : World) :
  get_settings w = (Ok (_settings w), w)
  /\ (let w' := snd (close w) in
      _running w' = false
      /\ get_settings w' = (Ok (_settings w), w')
      /\ wire w' = wire w).
Proof.
  split; [reflexivity|].
  destruct (close_frame w) as (_ & Hstop & _ & Hset & Hwire).
  cbn zeta. split; [exact Hstop|]. split; [|exact Hwire].
  unfold get_settings, gets. now rewrite Hset.
Qed.

(** ** get_collection *)

(** C5: on a running client, [get_collection] with both a name and an id, or
    with neither, raises the caller validation error before any request is
    built: the world, the wire included, is as it was. *)
Theorem get_collection_name_xor_id (w : World) (name : option string) (id : option UUID)
    (tenant database : string) :
  _running w = true ->
  (name = None /\ id = None) \/ (name <> None /\ id <> None) ->
  get_collection name id tenant database w
  = (Raise (ValueError "Name or id must be specified, but not both"), w).
Proof.
  intros Hr Hargs. unfold get_collection. rewrite gate_running by exact Hr.
  destruct Hargs as [[-> ->]|[Hn Hi]].
  - reflexivity.
  - destruct name as [n|]; [|congruence]. destruct id as [u|]; [|congruence].
    reflexivity.
Qed.

(** ** Percent-encoding of the path *)

Lemma append_cons (c : ascii) (s t : string) : String c s +:+ t = String c (s +:+ t).
Proof. reflexivity. Qed.

Lemma append_assoc (s t u : string) : (s +:+ t) +:+ u = s +:+ (t +:+ u).
Proof. induction s as [|c s IH]; [reflexivity|]. rewrite !append_cons. now rewrite IH. Qed.

Lemma length_append (s t : string) :
  String.length (s +:+ t) = (String.length s + String.length t)%nat.
Proof.
  induction s as [|c s IH]; [reflexivity|].
  rewrite append_cons. cbn [String.length]. now rewrite IH.
Qed.

Lemma chars_append (s t : string) :
  list_ascii_of_string (s +:+ t) = list_ascii_of_string s ++ list_ascii_of_string t.
Proof.
  induction s as [|c s IH]; [reflexivity|].
  rewrite append_cons. cbn [list_ascii_of_string]. now rewrite IH.
Qed.

Lemma quote_app (s t safe : string) : quote (s +:+ t) safe = quote s safe +:+ quote t safe.
Proof.
  induction s as [|c s IH]; [reflexivity|].
  rewrite append_cons. cbn [quote]. now rewrite IH, append_assoc.
Qed.

Lemma quote_byte_reserved (c : ascii) :
  reserved c = true -> c <> "/"%char ->
  quote_byte "/" c =
  String "%" (String (hex_digit true (N_of_ascii c / 16))
                (String (hex_digit true (N_of_ascii c mod 16)) EmptyString)).
Proof.
  intros Hres Hne. unfold reserved in Hres. cbn [mem_ascii] in Hres.
  repeat (apply orb_true_iff in Hres as [Hres|Hres];
          [apply Ascii.eqb_eq in Hres; subst c; first [reflexivity | congruence]|]).
  discriminate.
Qed.

Lemma quote_byte_output (c : ascii) :
  forallb (fun x => negb (reserved x) || Ascii.eqb x "/")
    (list_ascii_of_string (quote_byte "/" c)) = true.
Proof.
  destruct c as [b0 b1 b2 b3 b4 b5 b6 b7].
  destruct b0, b1, b2, b3, b4, b5, b6, b7; vm_compute; reflexivity.
Qed.

Lemma quote_output (s : string) (x : ascii) :
  In x (list_ascii_of_string (quote s "/")) -> reserved x = true -> x = "/"%char.
Proof.
  induction s as [|c s IH]; cbn [quote]; [intros []|].
  rewrite chars_append, in_app_iff. intros [Hx|Hx] Hres; [|now apply IH].
  pose proof (quote_byte_output c) as Hall. rewrite forallb_forall in Hall.
  specialize (Hall x Hx). rewrite Hres in Hall. cbn in Hall.
  now apply Ascii.eqb_eq.
Qed.

(** C9: the path is percent-encoded and only then appended to the base URL.
    Unless the body fails to serialize, in which case nothing is sent, the
    one request a dispatch puts on the wire has the URL [_api_url] followed
    by [quote path "/"].  The encoding keeps every [/] as it is, replaces
    every other reserved character, wherever it stands in the path, by its
    [%XX] escape, and so leaves no reserved character but [/] in the encoded
    path. *)
Theorem make_request_percent_encodes_path (method path : string) (json : option PyVal)
    (params : option Params) (w : World) :
  let w' := snd (_make_request method path json params w) in
  (encoded json = None -> w' = w)
  /\ (forall content, encoded json = Some content ->
        wire w' = the_request w method path params content :: wire w
        /\ req_url (the_request w method path params content)
           = _api_url w +:+ quote path "/")
  /\ (forall a b, quote (a +:+ "/" +:+ b) "/" = quote a "/" +:+ "/" +:+ quote b "/")
  /\ (forall a c b, reserved c = true -> c <> "/"%char ->
        quote (a +:+ String c b) "/"
        = quote a "/"
          +:+ String "%" (String (hex_digit true (N_of_ascii c / 16))
                            (String (hex_digit true (N_of_ascii c mod 16))
                               (quote b "/"))))
  /\ (forall x, In x (list_ascii_of_string (quote path "/")) ->
        reserved x = true -> x = "/"%char).
Proof.
  cbn zeta. rewrite make_request_eq. split; [|split; [|split; [|split]]].
  - intros ->. reflexivity.
  - intros content Hc. split; [|reflexivity].
    rewrite Hc. cbn [snd]. apply after_request_frame.
  - intros a b. now rewrite !quote_app.
  - intros a c b Hres Hne. rewrite quote_app. cbn [quote].
    now rewrite quote_byte_reserved.
  - apply quote_output.
Qed.

(** ** The path of get_collection by id *)

Lemma quote_safe (s : string) :
  forallb always_safe (list_ascii_of_string s) = true -> quote s "/" = s.
Proof.
  induction s as [|c s IH]; [reflexivity|].
  cbn [list_ascii_of_string forallb quote]. intros [Hc Hs]%andb_true_iff.
  unfold quote_byte. rewrite Hc. cbn [orb]. rewrite append_cons. now rewrite IH.
Qed.

Lemma safe_append (s t : string) :
  forallb always_safe (list_ascii_of_string s) = true ->
  forallb always_safe (list_ascii_of_string t) = true ->
  forallb always_safe (list_ascii_of_string (s +:+ t)) = true.
Proof. intros Hs Ht. rewrite chars_append, forallb_app. now rewrite Hs, Ht. Qed.

Lemma safe_substring (s : string) (n m : nat) :
  forallb always_safe (list_ascii_of_string s) = true ->
  forallb always_safe (list_ascii_of_string (substring n m s)) = true.
Proof.
  revert n m. induction s as [|c s IH]; intros n m Hs.
  - now destruct n, m.
  - cbn [list_ascii_of_string forallb] in Hs. apply andb_true_iff in Hs as [Hc Hs].
    destruct n as [|n]; [destruct m as [|m]|]; cbn [substring].
    + reflexivity.
    + cbn [list_ascii_of_string forallb]. rewrite Hc. now apply IH.
    + now apply IH.
Qed.

Lemma safe_hex_digit (d : N) : (d < 16)%N -> always_safe (hex_digit false d) = true.
Proof.
  intros Hd. rewrite <- (N2Nat.id d). assert (Hn : (N.to_nat d < 16)%nat) by lia.
  revert Hn. generalize (N.to_nat d) as n. intros n Hn.
  do 16 (destruct n as [|n]; [reflexivity|]). lia.
Qed.

Lemma safe_hex_lower (digits : nat) (v : N) :
  forallb always_safe (list_ascii_of_string (hex_lower digits v)) = true.
Proof.
  revert v. induction digits as [|d IH]; intros v; [reflexivity|].
  cbn [hex_lower]. apply safe_append; [apply IH|].
  cbn [list_ascii_of_string forallb]. rewrite safe_hex_digit; [reflexivity|].
  apply N.mod_lt. discriminate.
Qed.

Lemma quote_uuid_str (u : UUID) : quote (uuid_str u) "/" = uuid_str u.
Proof.
  apply quote_safe. unfold uuid_str. cbn zeta.
  repeat (apply safe_append;
          [first [apply safe_substring, safe_hex_lower | reflexivity]|]).
  apply safe_substring, safe_hex_lower.
Qed.

(** C1 (what the code does): on a running client, [get_collection] by id
    with no name issues exactly one GET request, with the query parameters
    tenant, database and type, and returns the collection built from the
    decoded response; but the path of the request is the string form of the
    uuid alone, appended to the base URL without the [/collections/] prefix,
    and the [type] parameter holds the uuid string. *)
Theorem get_collection_by_id_request (w : World) (id : UUID) (tenant database : string) :
  _running w = true ->
  let params := Some [("tenant", PStr tenant); ("database", PStr database);
                      ("type", PStr (uuid_str id))] in
  let r := the_request w "get" (uuid_str id) params None in
  get_collection None (Some id) tenant database w
  = (match outcome w r with
     | Ok resp_json => from_json resp_json
     | Raise e => Raise e
     end, after_request r w)
  /\ wire (after_request r w) = r :: wire w
  /\ req_url r = _api_url w +:+ uuid_str id
  /\ req_url r <> _api_url w +:+ quote ("/collections/" +:+ uuid_str id) "/".
Proof.
  intros Hr. cbn zeta. split; [|split; [|split]].
  - unfold get_collection. rewrite gate_running by exact Hr.
    unfold bind at 1. unfold ret at 1. unfold bind, lift.
    rewrite make_request_eq. cbn [encoded dict_set String.eqb Ascii.eqb str_opt_uuid].
    cbn. now destruct (outcome _ _).
  - apply after_request_frame.
  - cbn [the_request req_url]. now rewrite quote_uuid_str.
  - cbn [the_request req_url]. intros Heq. apply String.app_inj in Heq.
    rewrite quote_app in Heq.
    change (quote "/collections/" "/") with "/collections/" in Heq.
    apply (f_equal String.length) in Heq.
    rewrite length_append in Heq. cbn [String.length] in Heq. lia.
Qed.

(** ** get and query *)

Lemma get_eq (w : World) (collection_id : UUID) (ids : option (list string))
    (where_ : PyVal) (sort : option string) (limit offset page page_size : option Z)
    (where_document : PyVal) (include : list string) :
  _running w = true ->
  _get collection_id ids where_ sort limit offset page page_size where_document include w =
  let pg := _get_paging limit offset page page_size in
  match encoded (Some (_get_json ids where_ sort (snd pg) (fst pg) where_document include))
  with
  | Some content =>
      let r := the_request w "post" ("/collections/" +:+ uuid_str collection_id +:+ "/get")
                 None content in
      (and_then (outcome w r) (fun resp_json => GetResult_of resp_json (of_strs include)),
       after_request r w)
  | None => (Raise JSONEncodeError, w)
  end.
Proof.
  intros Hr. unfold _get. rewrite gate_running by exact Hr.
  destruct (_get_paging limit offset page page_size) as [offset' limit'].
  cbn [fst snd]. unfold bind, lift. rewrite make_request_eq.
  destruct (encoded _) as [content|]; [|reflexivity].
  cbn zeta. now destruct (outcome _ _).
Qed.

Lemma query_eq (w : World) (collection_id : UUID) (query_embeddings : option Embeddings)
    (n_results : Z) (where_ where_document : PyVal) (include : list string) :
  _running w = true ->
  _query collection_id query_embeddings n_results where_ where_document include w =
  match encoded (Some (_query_json query_embeddings n_results where_ where_document include))
  with
  | Some content =>
      let r := the_request w "post" ("/collections/" +:+ uuid_str collection_id +:+ "/query")
                 None content in
      (and_then (outcome w r) (fun resp_json => QueryResult_of resp_json (of_strs include)),
       after_request r w)
  | None => (Raise JSONEncodeError, w)
  end.
Proof.
  intros Hr. unfold _query. rewrite gate_running by exact Hr.
  unfold bind, lift. rewrite make_request_eq.
  destruct (encoded _) as [content|]; [|reflexivity].
  cbn zeta. now destruct (outcome _ _).
Qed.

Lemma paging_by_page (limit offset : option Z) (p ps : Z) :
  p <> 0 -> ps <> 0 ->
  _get_paging limit offset (Some p) (Some ps) = (Some ((p - 1) * ps), Some ps).
Proof.
  intros Hp Hps. unfold _get_paging, truthy_int.
  apply Z.eqb_neq in Hp, Hps. now rewrite Hp, Hps.
Qed.

(** C2 (amended): on a running client, a call of get with a page and a page
    size that are both given and both different from zero sends the body
    with offset = (page - 1) * page_size and limit = page_size, whatever
    limit and offset the caller passed as well: the call behaves as the call
    with that limit and offset and no page, and the request on the wire
    carries the serialized body with these two values. *)
Theorem get_page_overrides_limit_offset (w : World) (collection_id : UUID)
    (ids : option (list string)) (where_ : PyVal) (sort : option string)
    (limit offset : option Z) (p ps : Z) (where_document : PyVal) (include : list string) :
  _running w = true -> p <> 0 -> ps <> 0 ->
  let body := PDict [("ids", of_opt of_strs ids);
                     ("where", where_);
                     ("sort", of_opt PStr sort);
                     ("limit", PInt ps);
                     ("offset", PInt ((p - 1) * ps));
                     ("where_document", where_document);
                     ("include", of_strs include)] in
  let path := "/collections/" +:+ uuid_str collection_id +:+ "/get" in
  let call := _get collection_id ids where_ sort limit offset (Some p) (Some ps)
                where_document include in
  call w = _get collection_id ids where_ sort (Some ps) (Some ((p - 1) * ps)) None None
             where_document include w
  /\ (forall data, orjson_dumps body = Some data ->
        wire (snd (call w)) = the_request w "post" path None (Some data) :: wire w)
  /\ (orjson_dumps body = None -> call w = (Raise JSONEncodeError, w)).
Proof.
  intros Hr Hp Hps. cbn zeta. rewrite !get_eq by exact Hr.
  rewrite paging_by_page by assumption.
  unfold _get_paging, _get_json, encoded. cbn [fst snd of_opt].
  split; [reflexivity|]. split.
  - intros data ->. cbn [snd]. apply after_request_frame.
  - intros ->. reflexivity.
Qed.

Lemma marshalled_get (items : list (string * PyVal)) (k : string) (default : PyVal) :
  marshalled items k default (dict_get items k default).
Proof.
  unfold marshalled, dict_get. split.
  - intros v ->. reflexivity.
  - intros ->. reflexivity.
Qed.

(** C7: when the server answers a get or a query of a running client with a
    response that decodes to a dict holding the ids, the call returns a
    result record in which every optional field (embeddings, metadatas,
    documents, uris, and distances for a query) is the value the response
    has under that key, unchanged, when the key is there and None, not an
    empty collection, when it is missing; [included] is the include list of
    the response when it has one and the include list of the caller
    otherwise; [data] is None. *)
Theorem results_are_marshalled_from_the_response (w : World)
    (items : list (string * PyVal)) (response_ids : PyVal) (collection_id : UUID)
    (where_ where_document : PyVal) (include : list string) (data : string) :
  _running w = true ->
  dict_lookup "ids" items = Some response_ids ->
  (forall ids sort limit offset page page_size,
     let pg := _get_paging limit offset page page_size in
     let path := "/collections/" +:+ uuid_str collection_id +:+ "/get" in
     orjson_dumps (_get_json ids where_ sort (snd pg) (fst pg) where_document include)
     = Some data ->
     replies w "post" path None (Some data) (PDict items) ->
     exists r,
       _get collection_id ids where_ sort limit offset page page_size where_document
         include w
       = (Ok r, after_request (the_request w "post" path None (Some data)) w)
       /\ g_ids r = response_ids
       /\ marshalled items "embeddings" PNone (g_embeddings r)
       /\ marshalled items "metadatas" PNone (g_metadatas r)
       /\ marshalled items "documents" PNone (g_documents r)
       /\ marshalled items "uris" PNone (g_uris r)
       /\ marshalled items "included" (of_strs include) (g_included r)
       /\ g_data r = PNone)
  /\ (forall query_embeddings n_results,
     let path := "/collections/" +:+ uuid_str collection_id +:+ "/query" in
     orjson_dumps (_query_json query_embeddings n_results where_ where_document include)
     = Some data ->
     replies w "post" path None (Some data) (PDict items) ->
     exists r,
       _query collection_id query_embeddings n_results where_ where_document include w
       = (Ok r, after_request (the_request w "post" path None (Some data)) w)
       /\ q_ids r = response_ids
       /\ marshalled items "distances" PNone (q_distances r)
       /\ marshalled items "embeddings" PNone (q_embeddings r)
       /\ marshalled items "metadatas" PNone (q_metadatas r)
       /\ marshalled items "documents" PNone (q_documents r)
       /\ marshalled items "uris" PNone (q_uris r)
       /\ marshalled items "included" (of_strs include) (q_included r)
       /\ q_data r = PNone)
  /\ PNone <> PList [] /\ PNone <> PDict [].
Proof.
  intros Hr Hids. split; [|split; [|split; discriminate]].
  - intros ids sort limit offset page page_size pg path Hd Hrep.
    rewrite get_eq by exact Hr. fold pg. unfold encoded. rewrite Hd. cbn zeta.
    fold path. rewrite (replies_outcome _ _ _ _ _ _ Hrep).
    unfold and_then, GetResult_of, getitem, get_or. rewrite Hids. cbn [and_then].
    eexists. split; [reflexivity|]. cbn.
    repeat split; first [apply marshalled_get | reflexivity].
  - intros query_embeddings n_results path Hd Hrep.
    rewrite query_eq by exact Hr. unfold encoded. rewrite Hd. cbn zeta.
    fold path. rewrite (replies_outcome _ _ _ _ _ _ Hrep).
    unfold and_then, QueryResult_of, getitem, get_or. rewrite Hids. cbn [and_then].
    eexists. split; [reflexivity|]. cbn.
    repeat split; first [apply marshalled_get | reflexivity].
Qed.

(** ** The cached maximum batch size *)

Lemma get_max_batch_size_cached (w : World) :
  _running w = true -> py_eq_minus_one (_max_batch_size w) = false ->
  get_max_batch_size w = (Ok (_max_batch_size w), w).
Proof.
  intros Hr Hc. unfold get_max_batch_size. rewrite gate_running by exact Hr.
  unfold bind, gets, ret. cbn [fst snd]. now rewrite Hc.
Qed.

Lemma get_max_batch_size_fetch (w : World) :
  _running w = true -> py_eq_minus_one (_max_batch_size w) = true ->
  get_max_batch_size w =
  let r := the_request w "get" "/pre-flight-checks" None None in
  match and_then (outcome w r) (fun resp_json => getitem resp_json "max_batch_size") with
  | Ok v => (Ok v, with_max_batch_size v (after_request r w))
  | Raise e => (Raise e, after_request r w)
  end.
Proof.
  intros Hr Hc. unfold get_max_batch_size. rewrite gate_running by exact Hr.
  unfold bind at 1. unfold gets at 1. rewrite Hc.
  unfold bind, lift, modify, gets. rewrite make_request_eq. cbn [encoded]. cbn zeta.
  destruct (outcome _ _) as [resp|e]; [|reflexivity]. cbn [and_then].
  now destruct (getitem resp "max_batch_size").
Qed.

Lemma get_max_batch_size_post (w w' : World) (v : PyVal) :
  get_max_batch_size w = (Ok v, w') -> _running w' = true /\ _max_batch_size w' = v.
Proof.
  intros Hcall.
  destruct (_running w) eqn:Hr.
  - destruct (py_eq_minus_one (_max_batch_size w)) eqn:Hc.
    + rewrite get_max_batch_size_fetch in Hcall by assumption. cbn zeta in Hcall.
      destruct (and_then _ _) as [v'|e]; [|discriminate].
      injection Hcall as <- <-. split; [|reflexivity].
      destruct (after_request_frame
                  (the_request w "get" "/pre-flight-checks" None None) w)
        as (Hrun & _). cbn zeta in Hrun.
      unfold with_max_batch_size. cbn [_running]. congruence.
    + rewrite get_max_batch_size_cached in Hcall by assumption.
      injection Hcall as <- <-. now split.
  - pose proof (gate_stopped
                  (cached <- gets _max_batch_size ;;
                   (if py_eq_minus_one cached
                    then resp_json <- _make_request "get" "/pre-flight-checks" None None ;;
                         v <- lift (getitem resp_json "max_batch_size") ;;
                         modify (with_max_batch_size v)
                    else ret tt) ;;
                   gets _max_batch_size) w Hr) as Hf.
    unfold fails_fast in Hf. unfold get_max_batch_size in Hcall.
    rewrite Hf in Hcall. discriminate.
Qed.

Lemma calls_cached (n : nat) (w : World) :
  _running w = true -> py_eq_minus_one (_max_batch_size w) = false ->
  calls n w = (repeat (Ok (_max_batch_size w)) n, w).
Proof.
  intros Hr Hc. induction n as [|n IH]; [reflexivity|].
  cbn [calls repeat]. rewrite get_max_batch_size_cached by assumption.
  now rewrite IH.
Qed.

Lemma get_max_batch_size_fetched (w : World) (resp_json v : PyVal) :
  _running w = true ->
  py_eq_minus_one (_max_batch_size w) = true ->
  replies w "get" "/pre-flight-checks" None None resp_json ->
  getitem resp_json "max_batch_size" = Ok v ->
  let fetch := the_request w "get" "/pre-flight-checks" None None in
  get_max_batch_size w = (Ok v, with_max_batch_size v (after_request fetch w))
  /\ wire (with_max_batch_size v (after_request fetch w)) = fetch :: wire w.
Proof.
  intros Hr Hc Hrep Hv. cbn zeta.
  rewrite get_max_batch_size_fetch by assumption. cbn zeta.
  rewrite (replies_outcome _ _ _ _ _ _ Hrep). cbn [and_then]. rewrite Hv.
  split; [reflexivity|]. apply after_request_frame.
Qed.

(** ** Bulk mutations *)

Lemma check_length_cases {A} (field : string) (n : nat) (o : option (list A)) :
  check_length field n o = Ok tt \/ exists msg, check_length field n o = Raise (ValueError msg).
Proof.
  unfold check_length. destruct o as [l|]; [|now left].
  destruct (Nat.eqb _ _); [now left | right; eauto].
Qed.

Lemma validate_batch_over_limit (ids : list string) (embeddings metadatas : option (list PyVal))
    (documents uris : option (list string)) (m : Z) :
  Z.of_nat (length ids) > m ->
  exists msg,
    validate_batch (ids, embeddings, metadatas, documents, uris)
      [("max_batch_size", PInt m)] = Raise (ValueError msg).
Proof.
  intros Hlen. unfold validate_batch.
  destruct (check_length_cases "embeddings" (length ids) embeddings) as [->|[msg ->]];
    [|eauto].
  destruct (check_length_cases "metadatas" (length ids) metadatas) as [->|[msg ->]];
    [|eauto].
  destruct (check_length_cases "documents" (length ids) documents) as [->|[msg ->]];
    [|eauto].
  destruct (check_length_cases "uris" (length ids) uris) as [->|[msg ->]];
    [|eauto].
  cbn. apply Z.gtb_gt in Hlen. rewrite Hlen. eauto.
Qed.

Lemma invoke_eq (c : BatchCall) (w : World) :
  _running w = true ->
  exists (batch : Batch) (url : string),
    fst (fst (fst (fst batch))) = call_ids c
    /\ invoke c w =
       (max_batch_size <- get_max_batch_size ;;
        lift (validate_batch batch [("max_batch_size", max_batch_size)]) ;;
        _submit_batch batch url ;;
        ret true) w.
Proof.
  intros Hr.
  destruct c; cbn [invoke call_ids];
    [unfold _add | unfold _update | unfold _upsert];
    rewrite gate_running by exact Hr; cbn zeta;
    eexists (_, _, _, _, _), _; (split; [reflexivity|]); reflexivity.
Qed.

(** C3 (amended): on a running client, add, update and upsert of a batch
    with more ids than the maximum batch size raise the validation error and
    issue no submission request.  With the maximum already cached nothing at
    all is sent and the world is as it was; with the maximum still unfetched
    (-1) the one request that goes out before the error is the pre-flight
    GET that fetches the maximum the server advertises. *)
Theorem batch_over_limit_is_rejected (c : BatchCall) (w : World) (m : Z) :
  _running w = true ->
  Z.of_nat (length (call_ids c)) > m ->
  let fetch := the_request w "get" "/pre-flight-checks" None None in
  (_max_batch_size w = PInt m -> m <> -1 ->
     exists msg, invoke c w = (Raise (ValueError msg), w))
  /\ (forall resp_json,
        py_eq_minus_one (_max_batch_size w) = true ->
        replies w "get" "/pre-flight-checks" None None resp_json ->
        getitem resp_json "max_batch_size" = Ok (PInt m) ->
        exists msg,
          invoke c w
          = (Raise (ValueError msg), with_max_batch_size (PInt m) (after_request fetch w))
          /\ wire (with_max_batch_size (PInt m) (after_request fetch w))
             = fetch :: wire w).
Proof.
  intros Hr Hlen. cbn zeta.
  destruct (invoke_eq c w Hr) as ([[[[ids e] md] d] u] & url & Hids & ->).
  cbn [fst] in Hids. subst ids.
  destruct (validate_batch_over_limit (call_ids c) e md d u m Hlen) as [msg Hv].
  split.
  - intros Hc Hm. exists msg. unfold bind at 1.
    rewrite get_max_batch_size_cached; [|exact Hr|].
    + rewrite Hc. unfold bind at 1. unfold lift. now rewrite Hv.
    + rewrite Hc. cbn. now apply Z.eqb_neq.
  - intros resp_json Hc Hrep Hget. exists msg.
    destruct (get_max_batch_size_fetched w resp_json (PInt m) Hr Hc Hrep Hget)
      as [Hcall Hwire].
    split; [|exact Hwire].
    unfold bind at 1. rewrite Hcall. unfold bind at 1. unfold lift. now rewrite Hv.
Qed.

(** ** One connection per execution context *)

Lemma acquire_spec (loop : option Z) (w : World) :
  exists c w',
    acquire loop w = (Ok c, w')
    /\ _clients w' !! loop_hash_of loop = Some c
    /\ (heap_next w <= heap_next w')%nat
    /\ (forall k c', _clients w !! k = Some c' -> _clients w' !! k = Some c')
    /\ (forall k c', _clients w' !! k = Some c' ->
          _clients w !! k = Some c'
          \/ (k = loop_hash_of loop /\ c' = heap_next w
              /\ heap_next w' = S (heap_next w))).
Proof.
  unfold acquire, bind, modify. rewrite get_client_eq.
  cbn [with_event_loop event_loop _clients].
  destruct (_clients w !! loop_hash_of loop) as [c|] eqn:E.
  - exists c, (with_event_loop loop w). cbn. repeat split; auto.
  - eexists _, _. split; [reflexivity|]. cbn. split; [apply lookup_insert_eq|].
    split; [lia|]. split.
    + intros k c' Hk. rewrite lookup_insert_ne; [assumption|]. congruence.
    + intros k c' Hk. destruct (decide (loop_hash_of loop = k)) as [<-|Hne].
      * rewrite lookup_insert_eq in Hk. injection Hk as <-. now right.
      * rewrite lookup_insert_ne in Hk by assumption. now left.
Qed.

Lemma step_heap_next (w : World) (e : Event) : (heap_next w <= heap_next (step w e))%nat.
Proof.
  destruct e as [loop|]; cbn [step].
  - destruct (acquire_spec loop w) as (c & w' & -> & _ & Hle & _). exact Hle.
  - rewrite cleanup_eq. cbn. lia.
Qed.

Lemma registry_ok_empty (w : World) : _clients w = ∅ -> registry_ok w.
Proof.
  intros He. unfold registry_ok. rewrite He.
  split; intros *; rewrite lookup_empty; discriminate.
Qed.

Lemma step_registry_ok (w : World) (e : Event) : registry_ok w -> registry_ok (step w e).
Proof.
  intros [Hb Hi]. destruct e as [loop|]; cbn [step].
  - destruct (acquire_spec loop w) as (c0 & w' & -> & _ & Hle & _ & Hnew).
    cbn [snd]. split.
    + intros k c' Hl. destruct (Hnew k c' Hl) as [Hold|(_ & -> & ->)]; [|lia].
      specialize (Hb k c' Hold). lia.
    + intros k1 k2 c' H1 H2.
      destruct (Hnew k1 c' H1) as [O1|(K1 & C1 & _)],
               (Hnew k2 c' H2) as [O2|(K2 & C2 & _)].
      * exact (Hi k1 k2 c' O1 O2).
      * specialize (Hb k1 c' O1). lia.
      * specialize (Hb k2 c' O2). lia.
      * congruence.
  - rewrite cleanup_eq. cbn [snd]. apply registry_ok_empty. reflexivity.
Qed.

(** A connection [c] that is allocated and filed under no key but [key]
    stays so: a later entry of the table is a fresh connection. *)
Lemma step_tracks (w : World) (e : Event) (c : Conn) (key : Z) :
  (c < heap_next w)%nat /\ (forall k, _clients w !! k = Some c -> k = key) ->
  (c < heap_next (step w e))%nat
  /\ (forall k, _clients (step w e) !! k = Some c -> k = key).
Proof.
  intros (Hc & Hk). pose proof (step_heap_next w e) as Hle.
  split; [lia|]. destruct e as [loop|]; cbn [step] in *.
  - destruct (acquire_spec loop w) as (c0 & w' & -> & _ & _ & _ & Hnew).
    cbn [snd] in *. intros k Hl.
    destruct (Hnew k c Hl) as [Hold|(_ & -> & _)]; [now apply Hk | lia].
  - rewrite cleanup_eq. cbn [snd with_clients _clients]. intros k.
    rewrite lookup_empty. discriminate.
Qed.

Lemma run_registry_ok (events : list Event) (w : World) :
  registry_ok w -> registry_ok (run events w).
Proof.
  revert w. induction events as [|e events IH]; intros w Hok; [exact Hok|].
  cbn [run fold_left]. apply IH. now apply step_registry_ok.
Qed.

Lemma run_tracks (events : list Event) (w : World) (c : Conn) (key : Z) :
  (c < heap_next w)%nat /\ (forall k, _clients w !! k = Some c -> k = key) ->
  (c < heap_next (run events w))%nat
  /\ (forall k, _clients (run events w) !! k = Some c -> k = key).
Proof.
  revert w. induction events as [|e events IH]; intros w Hinv; [exact Hinv|].
  cbn [run fold_left]. apply IH. now apply step_tracks.
Qed.

Lemma run_keeps (events : list Event) (w : World) (c : Conn) (key : Z) :
  existsb is_shutdown events = false ->
  _clients w !! key = Some c -> _clients (run events w) !! key = Some c.
Proof.
  revert w. induction events as [|e events IH]; intros w Hno Hl; [exact Hl|].
  cbn [existsb] in Hno. apply orb_false_iff in Hno as [He Hno].
  cbn [run fold_left]. apply IH; [exact Hno|].
  destruct e as [loop|]; [|discriminate]. cbn [step].
  destruct (acquire_spec loop w) as (c0 & w' & -> & _ & _ & Hkeep & _).
  now apply Hkeep.
Qed.

(** A dispatch touches the table through [_get_client] only, so it keeps the
    invariant as an acquisition does. *)
Lemma make_request_registry_ok (method path : string) (json : option PyVal)
    (params : option Params) (w : World) :
  registry_ok w -> registry_ok (snd (_make_request method path json params w)).
Proof.
  intros Hok. rewrite make_request_eq.
  destruct (encoded json) as [content|]; [|exact Hok].
  pose proof (step_registry_ok w (Acquire (event_loop w)) Hok) as Hstep.
  cbn [step] in Hstep. unfold acquire, bind, modify in Hstep.
  replace (with_event_loop (event_loop w) w) with w in Hstep by now destruct w.
  exact Hstep.
Qed.

(** C8 (amended): take two acquisitions of a connection, with any further
    acquisitions and shutdowns of the table between them.  Under distinct
    execution-context keys they return distinct connections, always.  Under
    the same key they return the same connection when the table was not shut
    down between them. *)
Theorem connections_follow_the_context_key (w : World) (loop1 loop2 : option Z)
    (events : list Event) :
  registry_ok w ->
  let first := acquire loop1 w in
  let second := acquire loop2 (run events (snd first)) in
  exists c1 c2,
    fst first = Ok c1 /\ fst second = Ok c2
    /\ (loop_hash_of loop1 = loop_hash_of loop2 ->
        existsb is_shutdown events = false -> c1 = c2)
    /\ (loop_hash_of loop1 <> loop_hash_of loop2 -> c1 <> c2).
Proof.
  intros Hok. cbn zeta.
  pose proof (step_registry_ok w (Acquire loop1) Hok) as Hok1. cbn [step] in Hok1.
  destruct (acquire_spec loop1 w) as (c1 & w1 & E1 & Hl1 & _).
  rewrite E1 in *. cbn [fst snd] in *.
  destruct Hok1 as [Hb1 Hi1].
  assert (Htr : (c1 < heap_next w1)%nat
                /\ (forall k, _clients w1 !! k = Some c1 -> k = loop_hash_of loop1)).
  { split; [exact (Hb1 _ _ Hl1)|]. intros k Hk. exact (Hi1 _ _ _ Hk Hl1). }
  apply (run_tracks events) in Htr as [Hc2 Hk2].
  destruct (acquire_spec loop2 (run events w1))
    as (c2 & w2 & E2 & Hl2 & _ & Hkeep2 & Hnew2).
  rewrite E2. cbn [fst]. exists c1, c2. repeat split.
  - intros Hkey Hno. pose proof (run_keeps events w1 c1 _ Hno Hl1) as Hl.
    apply Hkeep2 in Hl. rewrite Hkey in Hl. congruence.
  - intros Hkey <-. destruct (Hnew2 _ _ Hl2) as [Hold|(_ & Hfresh & _)].
    + apply Hk2 in Hold. congruence.
    + lia.
Qed.

End Properties.

(** * Scenarios against the scripted server *)

Example quote_example : quote "/collections/a b?c" "/" = "/collections/a%20b%3Fc".
Proof. reflexivity. Qed.

Example uuid_str_example :
  uuid_str {| uuid_int := 42 |} = "00000000-0000-0000-0000-00000000002a".
Proof. reflexivity. Qed.

Example utf8_chars_example : utf8_chars "a/b" = ["a"; "/"; "b"].
Proof. reflexivity. Qed.

Example heartbeat_example :
  fst (heartbeat (Stub.world [(200, PDict [("nanosecond heartbeat", PInt 12345)])]))
  = Ok 12345.
Proof. vm_compute. reflexivity. Qed.

Example heartbeat_after_close_example :
  let w := snd (close (snd (__aenter__ (Stub.world [])))) in
  heartbeat w = (Raise LifecycleError, w) /\ wire w = [] /\ aclosed w = [0%nat].
Proof. vm_compute. repeat split. Qed.

Example cleanup_closes_newest_first_example :
  let opened := run [Acquire (Some 9); Acquire (Some 7)] (Stub.world []) in
  _clients opened !! 9 = Some 0%nat /\ _clients opened !! 7 = Some 1%nat
  /\ popitem_order (_clients opened) = [(7, 1%nat); (9, 0%nat)]
  /\ aclosed (snd (_cleanup opened)) = [0%nat; 1%nat].
Proof. vm_compute. repeat split. Qed.

Example get_collection_by_name_example :
  map req_url
    (wire (snd (get_collection (Some "my docs") None "default_tenant" "default_database"
                  (Stub.world [(200, PDict [("name", PStr "my docs")])]))))
  = ["http://localhost:8000/api/v1/collections/my%20docs"].
Proof. vm_compute. reflexivity. Qed.

Example remote_error_example :
  fst (get_version (Stub.world [(404, PNone)])) = Raise (RemoteError 404 "null").
Proof. vm_compute. reflexivity. Qed.

(** C5 at [get_collection(name=None, id=None)]. *)
Lemma get_collection_name_xor_id_witness :
  let w := Stub.world [] in
  _running w = true
  /\ get_collection None None "default_tenant" "default_database" w
     = (Raise (ValueError "Name or id must be specified, but not both"), w)
  /\ get_collection (Some "docs") (Some Stub.some_id) "default_tenant" "default_database" w
     = (Raise (ValueError "Name or id must be specified, but not both"), w).
Proof.
  cbn zeta. split; [reflexivity|]. split.
  - apply get_collection_name_xor_id; [reflexivity|]. left. split; reflexivity.
  - apply get_collection_name_xor_id; [reflexivity|]. right. split; discriminate.
Defined.

(** C1 at [get_collection(name=None, id=UUID(int=42))]: the one request goes
    to the base URL followed by the uuid, with no [/collections/] before
    it. *)
Lemma get_collection_by_id_request_witness :
  let w := Stub.world [(200, PDict [("name", PStr "docs")])] in
  _running w = true
  /\ map req_url
       (wire (snd (get_collection None (Some Stub.some_id) "default_tenant"
                     "default_database" w)))
     = ["http://localhost:8000/api/v100000000-0000-0000-0000-00000000002a"]
  /\ map req_params
       (wire (snd (get_collection None (Some Stub.some_id) "default_tenant"
                     "default_database" w)))
     = [Some [("tenant", PStr "default_tenant"); ("database", PStr "default_database");
              ("type", PStr "00000000-0000-0000-0000-00000000002a")]].
Proof.
  cbn zeta. split; [reflexivity|].
  destruct (get_collection_by_id_request
              (Stub.world [(200, PDict [("name", PStr "docs")])]) Stub.some_id
              "default_tenant" "default_database" eq_refl) as (Heq & _).
  rewrite Heq. split; vm_compute; reflexivity.
Defined.

(** C2 at [get(limit=5, offset=3, page=2, page_size=10)]: the body carries
    limit 10 and offset 10. *)
Lemma get_page_overrides_limit_offset_witness :
  let w := Stub.world [(200, PDict [("ids", PList [])])] in
  _running w = true /\ 2 <> 0 /\ 10 <> 0
  /\ map req_content
       (wire (snd (_get Stub.some_id None (PDict []) None (Some 5) (Some 3) (Some 2)
                     (Some 10) (PDict []) ["documents"] w)))
     = [Some (Stub.render (PDict [("ids", PNone); ("where", PDict []); ("sort", PNone);
                                  ("limit", PInt 10); ("offset", PInt 10);
                                  ("where_document", PDict []);
                                  ("include", PList [PStr "documents"])]))].
Proof.
  cbn zeta. split; [reflexivity|]. split; [discriminate|]. split; [discriminate|].
  destruct (get_page_overrides_limit_offset
              (Stub.world [(200, PDict [("ids", PList [])])]) Stub.some_id None (PDict [])
              None (Some 5) (Some 3) 2 10 (PDict []) ["documents"] eq_refl)
    as (_ & Hwire & _); [discriminate | discriminate |].
  rewrite (Hwire _ eq_refl). reflexivity.
Defined.

(** C2 as stated fails at [get(limit=5, offset=3, page=0, page_size=10)]:
    page and page size are both given, and the body is sent with the limit 5
    and the offset 3 of the caller, not with limit 10 and offset
    (0 - 1) * 10. *)
Lemma get_page_zero_keeps_limit_offset :
  let w := Stub.world [(200, PDict [("ids", PList [])])] in
  let sent :=
    map req_content
      (wire (snd (_get Stub.some_id None (PDict []) None (Some 5) (Some 3) (Some 0)
                    (Some 10) (PDict []) ["documents"] w))) in
  sent = [Some (Stub.render (_get_json None (PDict []) None (Some 5) (Some 3) (PDict [])
                               ["documents"]))]
  /\ sent <> [Some (Stub.render (_get_json None (PDict []) None (Some 10)
                                   (Some ((0 - 1) * 10)) (PDict []) ["documents"]))].
Proof. vm_compute. split; [reflexivity | discriminate]. Qed.

(** C3 at an add of three records against a maximum of 2, once with the
    maximum cached and once with it still unfetched. *)
Lemma batch_over_limit_is_rejected_witness :
  let script := [(200, PDict [("max_batch_size", PInt 2)])] in
  let w := Stub.world script in
  let cached := with_max_batch_size (PInt 2) w in
  let c := @CallAdd (Stub.external script) ["a"; "b"; "c"] Stub.some_id
             [PList []; PList []; PList []] None None None in
  _running w = true /\ Z.of_nat (length (call_ids c)) > 2
  /\ (exists msg, invoke c cached = (Raise (ValueError msg), cached))
  /\ (exists msg w', invoke c w = (Raise (ValueError msg), w')
                     /\ map req_method (wire w') = ["get"]).
Proof.
  cbn zeta. split; [reflexivity|]. split; [reflexivity|]. split.
  - apply (batch_over_limit_is_rejected _ _ 2); [reflexivity | reflexivity | reflexivity |].
    discriminate.
  - edestruct (batch_over_limit_is_rejected
                 (@CallAdd (Stub.external [(200, PDict [("max_batch_size", PInt 2)])])
                    ["a"; "b"; "c"] Stub.some_id [PList []; PList []; PList []]
                    None None None)
                 (Stub.world [(200, PDict [("max_batch_size", PInt 2)])]) 2
                 eq_refl eq_refl) as (_ & Hfetch).
    destruct (Hfetch (PDict [("max_batch_size", PInt 2)])) as (msg & Hcall & Hwire).
    + reflexivity.
    + eexists. split; [reflexivity|]. split; reflexivity.
    + reflexivity.
    + exists msg. eexists. split; [exact Hcall|]. rewrite Hwire. reflexivity.
Defined.

(** C3 as stated fails at an add of three records on a client that has not
    fetched the maximum yet, the server advertising 2: the validation error
    is raised, and one request, the pre-flight GET, has gone out before
    it. *)
Lemma batch_over_limit_fetches_first :
  let script := [(200, PDict [("max_batch_size", PInt 2)])] in
  let c := @CallAdd (Stub.external script) ["a"; "b"; "c"] Stub.some_id
             [PList []; PList []; PList []] None None None in
  fst (invoke c (Stub.world script))
  = Raise (ValueError "Batch size 3 exceeds maximum batch size 2")
  /\ map (fun r => (req_method r, req_url r)) (wire (snd (invoke c (Stub.world script))))
     = [("get", "http://localhost:8000/api/v1/pre-flight-checks")]
  /\ wire (snd (invoke c (Stub.world script))) <> [].
Proof. vm_compute. split; [reflexivity|]. split; [reflexivity | discriminate]. Qed.

(** C4 as stated fails twice.  When the server advertises -1, the first call
    fetches and stores -1 and the second call fetches again; when the first
    fetch fails, nothing is stored and the second call fetches again.  Either
    way two calls issue two requests to the pre-flight endpoint. *)
Lemma max_batch_size_is_fetched_again :
  let minus_one := Stub.world [(200, PDict [("max_batch_size", PInt (-1))]);
                               (200, PDict [("max_batch_size", PInt (-1))])] in
  let failing := Stub.world [(503, PStr "unavailable");
                             (200, PDict [("max_batch_size", PInt 100)])] in
  let fetch := "http://localhost:8000/api/v1/pre-flight-checks" in
  (fst (calls 2 minus_one) = [Ok (PInt (-1)); Ok (PInt (-1))]
   /\ map req_url (wire (snd (calls 2 minus_one))) = [fetch; fetch])
  /\ (fst (calls 2 failing)
      = [Raise (RemoteError 503 (Stub.render (PStr "unavailable"))); Ok (PInt 100)]
      /\ map req_url (wire (snd (calls 2 failing))) = [fetch; fetch]).
Proof. vm_compute. repeat split. Qed.

(** C7 at a response that has the ids and the embeddings and no other key:
    the embeddings come through, the documents are None and [included] is
    the include list of the caller. *)
Lemma results_are_marshalled_from_the_response_witness :
  let items := [("ids", PList [PStr "a"]); ("embeddings", PList [PList [PInt 1; PInt 2]])] in
  let w := Stub.world [(200, PDict items)] in
  _running w = true
  /\ dict_lookup "ids" items = Some (PList [PStr "a"])
  /\ (exists r w', _get Stub.some_id None (PDict []) None None None None None (PDict [])
                     ["embeddings"; "documents"] w = (Ok r, w')
                   /\ g_ids r = PList [PStr "a"]
                   /\ g_embeddings r = PList [PList [PInt 1; PInt 2]]
                   /\ g_documents r = PNone
                   /\ g_included r = PList [PStr "embeddings"; PStr "documents"]
                   /\ g_data r = PNone)
  /\ (exists r w', @_query (Stub.external [(200, PDict items)]) Stub.some_id
                     (Some [PList [PInt 1; PInt 2]]) 10 (PDict [])
                     (PDict []) ["embeddings"; "distances"] w = (Ok r, w')
                   /\ q_embeddings r = PList [PList [PInt 1; PInt 2]]
                   /\ q_distances r = PNone
                   /\ q_data r = PNone).
Proof.
  cbn zeta. split; [reflexivity|]. split; [reflexivity|].
  pose (items := [("ids", PList [PStr "a"]);
                  ("embeddings", PList [PList [PInt 1; PInt 2]])]).
  split.
  - edestruct (results_are_marshalled_from_the_response
                 (Stub.world [(200, PDict items)]) items (PList [PStr "a"]) Stub.some_id
                 (PDict []) (PDict []) ["embeddings"; "documents"]
                 (Stub.render (_get_json None (PDict []) None None None (PDict [])
                                 ["embeddings"; "documents"]))
                 eq_refl eq_refl) as (Hget & _).
    destruct (Hget None None None None None None) as (r & Hcall & Hids & He & _ & Hd & _ & Hi & Hdata).
    + reflexivity.
    + eexists. split; [reflexivity|]. split; reflexivity.
    + exists r. eexists. split; [exact Hcall|]. split; [exact Hids|].
      split; [exact (proj1 He _ eq_refl)|]. split; [exact (proj2 Hd eq_refl)|].
      split; [exact (proj2 Hi eq_refl) | exact Hdata].
  - edestruct (results_are_marshalled_from_the_response
                 (Stub.world [(200, PDict items)]) items (PList [PStr "a"]) Stub.some_id
                 (PDict []) (PDict []) ["embeddings"; "distances"]
                 (Stub.render (@_query_json (Stub.external [(200, PDict items)])
                                 (Some [PList [PInt 1; PInt 2]]) 10 (PDict []) (PDict [])
                                 ["embeddings"; "distances"]))
                 eq_refl eq_refl) as (_ & Hquery & _).
    destruct (Hquery (Some [PList [PInt 1; PInt 2]]) 10)
      as (r & Hcall & _ & Hdist & He & _ & _ & _ & _ & Hdata).
    + reflexivity.
    + eexists. split; [reflexivity|]. split; reflexivity.
    + exists r. eexists. split; [exact Hcall|].
      split; [exact (proj1 He _ eq_refl)|]. split; [exact (proj2 Hdist eq_refl) | exact Hdata].
Defined.

(** C8 at two acquisitions from event loop 7 and one from event loop 9. *)
Lemma connections_follow_the_context_key_witness :
  let w := Stub.world [] in
  registry_ok w
  /\ (exists c1 c2,
        fst (acquire (Some 7) w) = Ok c1
        /\ fst (acquire (Some 7) (run [Acquire (Some 9)] (snd (acquire (Some 7) w)))) = Ok c2
        /\ c1 = c2)
  /\ (exists c1 c2,
        fst (acquire (Some 7) w) = Ok c1
        /\ fst (acquire (Some 9) (run [Shutdown] (snd (acquire (Some 7) w)))) = Ok c2
        /\ c1 <> c2).
Proof.
  cbn zeta.
  assert (Hok : registry_ok (Stub.world [])) by (apply registry_ok_empty; reflexivity).
  split; [exact Hok|]. split.
  - destruct (connections_follow_the_context_key (Stub.world []) (Some 7) (Some 7)
                [Acquire (Some 9)] Hok) as (c1 & c2 & H1 & H2 & Hsame & _).
    exists c1, c2. split; [exact H1|]. split; [exact H2|].
    apply Hsame; reflexivity.
  - destruct (connections_follow_the_context_key (Stub.world []) (Some 7) (Some 9)
                [Shutdown] Hok) as (c1 & c2 & H1 & H2 & _ & Hdiff).
    exists c1, c2. split; [exact H1|]. split; [exact H2|].
    apply Hdiff. discriminate.
Defined.

(** C8 as stated fails at two acquisitions from event loop 7 with a shutdown
    of the table between them, as [__aexit__] does on a client that stays
    running: the same key, and two different connections. *)
Lemma same_key_after_shutdown_gets_a_new_connection :
  let w := Stub.world [] in
  let first := acquire (Some 7) w in
  let second := acquire (Some 7) (snd (__aexit__ (snd first))) in
  fst first = Ok 0%nat /\ fst second = Ok 1%nat
  /\ run [Shutdown] (snd first) = snd (__aexit__ (snd first))
  /\ fst first <> fst second.
Proof. vm_compute. repeat split. discriminate. Qed.

(** C9 at a path with a space, a question mark and a hash in a name. *)
Lemma make_request_percent_encodes_path_witness :
  let w := Stub.world [(200, PNone)] in
  map req_url (wire (snd (_make_request "get" "/collections/my docs?#1" None None w)))
  = ["http://localhost:8000/api/v1/collections/my%20docs%3F%231"]
  /\ quote "a?b" "/" = "a%3Fb".
Proof.
  cbn zeta.
  destruct (make_request_percent_encodes_path "get" "/collections/my docs?#1" None None
              (Stub.world [(200, PNone)])) as (_ & Hsent & _ & Hesc & _).
  split.
  - destruct (Hsent None eq_refl) as [Hwire Hurl]. rewrite Hwire.
    cbn [map]. rewrite Hurl. reflexivity.
  - exact (Hesc "a" "?"%char "b" eq_refl ltac:(discriminate)).
Defined.

(** * Further properties *)
Section Further.
Context `{External}.

(** ** What an operation may do to the world *)

Lemma get_client_registry (w : World) :
  registry (snd (_get_client w)) =
  match _clients w !! loop_hash_of (event_loop w) with
  | Some _ => registry w
  | None => (<[loop_hash_of (event_loop w) := heap_next w]> (_clients w), S (heap_next w))
  end.
Proof.
  rewrite get_client_eq. now destruct (_clients w !! loop_hash_of (event_loop w)).
Qed.

Lemma registry_fields (w1 w2 : World) :
  registry w1 = registry w2 -> _clients w1 = _clients w2 /\ heap_next w1 = heap_next w2.
Proof. unfold registry. intros Hr. now injection Hr. Qed.

Lemma client_of_ext (w1 w2 : World) :
  registry w1 = registry w2 -> event_loop w1 = event_loop w2 -> client_of w1 = client_of w2.
Proof.
  intros [Hc Hh]%registry_fields Hl. unfold client_of. now rewrite Hc, Hh, Hl.
Qed.

Lemma get_client_registry_ext (w1 w2 : World) :
  registry w1 = registry w2 -> event_loop w1 = event_loop w2 ->
  registry (snd (_get_client w1)) = registry (snd (_get_client w2)).
Proof.
  intros Hr Hl. rewrite !get_client_registry.
  destruct (registry_fields _ _ Hr) as [Hc Hh]. rewrite Hc, Hh, Hl.
  now destruct (_clients w2 !! loop_hash_of (event_loop w2)).
Qed.

Lemma get_client_idem (w : World) :
  registry (snd (_get_client (snd (_get_client w)))) = registry (snd (_get_client w)).
Proof.
  destruct (get_client_frame w) as (_ & _ & _ & _ & Hl & _). cbn zeta in Hl.
  rewrite (get_client_registry (snd (_get_client w))). rewrite Hl.
  pose proof (get_client_registry w) as Hr.
  destruct (_clients w !! loop_hash_of (event_loop w)) as [c|] eqn:E.
  - destruct (registry_fields _ _ Hr) as [-> _]. now rewrite E.
  - unfold registry in Hr. injection Hr as Hc' _. rewrite Hc'.
    now rewrite lookup_insert_eq.
Qed.

Lemma client_of_get_client (w : World) : client_of (snd (_get_client w)) = client_of w.
Proof.
  destruct (get_client_frame w) as (_ & _ & _ & _ & Hl & _). cbn zeta in Hl.
  pose proof (get_client_registry w) as Hr. unfold registry in Hr.
  unfold client_of. rewrite Hl.
  destruct (_clients w !! loop_hash_of (event_loop w)) as [c|] eqn:E.
  - injection Hr as -> _. now rewrite E.
  - injection Hr as -> _. now rewrite lookup_insert_eq.
Qed.

Lemma same_context_refl (w : World) : same_context w w.
Proof. unfold same_context. repeat split; auto. Qed.

Lemma same_context_client_of (w w' : World) :
  same_context w w' -> client_of w' = client_of w.
Proof.
  intros (_ & _ & _ & Hl & _ & [Hr|Hr]).
  - now apply client_of_ext.
  - rewrite <- (client_of_get_client w). apply client_of_ext; [exact Hr|].
    destruct (get_client_frame w) as (_ & _ & _ & _ & Hl' & _). cbn zeta in Hl'.
    congruence.
Qed.

Lemma same_context_trans (w w1 w2 : World) :
  same_context w w1 -> same_context w1 w2 -> same_context w w2.
Proof.
  intros (Hr1 & Hs1 & Hu1 & Hl1 & Ha1 & Hreg1) (Hr2 & Hs2 & Hu2 & Hl2 & Ha2 & Hreg2).
  unfold same_context. repeat split; try congruence.
  destruct (get_client_frame w) as (_ & _ & _ & _ & Hlw & _). cbn zeta in Hlw.
  destruct Hreg2 as [Hreg2|Hreg2].
  - rewrite Hreg2. exact Hreg1.
  - right. rewrite Hreg2. destruct Hreg1 as [Hreg1|Hreg1].
    + now apply get_client_registry_ext.
    + rewrite <- (get_client_idem w).
      apply get_client_registry_ext; [exact Hreg1 | congruence].
Qed.

Lemma sends_refl (w : World) : sends 0 w w.
Proof. exists []. split; [reflexivity|]. split; [cbn; lia | constructor]. Qed.

Lemma sends_le (n n' : nat) (w w' : World) : (n <= n')%nat -> sends n w w' -> sends n' w w'.
Proof.
  intros Hle (new & Hw & Hlen & Hall). exists new.
  split; [assumption|]. split; [lia | assumption].
Qed.

Lemma sends_trans (n1 n2 : nat) (w w1 w2 : World) :
  same_context w w1 -> sends n1 w w1 -> sends n2 w1 w2 -> sends (n1 + n2) w w2.
Proof.
  intros Hctx (new1 & Hw1 & Hlen1 & Hall1) (new2 & Hw2 & Hlen2 & Hall2).
  exists (new2 ++ new1). split; [|split].
  - rewrite Hw2, Hw1. now rewrite app_assoc.
  - rewrite length_app. lia.
  - apply Forall_app. split; [|exact Hall1].
    rewrite (same_context_client_of _ _ Hctx) in Hall2.
    destruct Hctx as (_ & _ & Hu & _). now rewrite Hu in Hall2.
Qed.

Lemma behaves_ret {A} (a : A) : behaves 0 (ret a).
Proof. intros w. split; [apply same_context_refl | apply sends_refl]. Qed.

Lemma behaves_raise {A} (e : Exn) : behaves 0 (@raise _ A e).
Proof. intros w. split; [apply same_context_refl | apply sends_refl]. Qed.

Lemma behaves_lift {A} (r : Result A) : behaves 0 (lift r).
Proof. intros w. split; [apply same_context_refl | apply sends_refl]. Qed.

Lemma behaves_gets {A} (f : World -> A) : behaves 0 (gets f).
Proof. intros w. split; [apply same_context_refl | apply sends_refl]. Qed.

Lemma behaves_le {A} (n n' : nat) (m : M A) :
  (n <= n')%nat -> behaves n m -> behaves n' m.
Proof. intros Hle Hm w. destruct (Hm w) as [Hc Hs]. split; [exact Hc|]. now apply (sends_le n). Qed.

Lemma behaves_bind {A B} (n1 n2 : nat) (m : M A) (k : A -> M B) :
  behaves n1 m -> (forall a, behaves n2 (k a)) -> behaves (n1 + n2) (bind m k).
Proof.
  intros Hm Hk w. unfold bind. destruct (Hm w) as [Hc Hs].
  destruct (m w) as [[a|e] w1]; cbn [snd] in *.
  - destruct (Hk a w1) as [Hc2 Hs2]. split.
    + now apply (same_context_trans w w1).
    + now apply (sends_trans n1 n2 w w1).
  - split; [exact Hc|]. apply (sends_le n1); [lia | exact Hs].
Qed.

Lemma behaves_gate : behaves 0 _raise_for_running.
Proof.
  intros w. unfold _raise_for_running, bind, gets, ret, raise. cbn [fst snd].
  destruct (_running w); split; first [apply same_context_refl | apply sends_refl].
Qed.

Lemma behaves_set_max_batch_size (v : PyVal) : behaves 0 (modify (with_max_batch_size v)).
Proof.
  intros w. unfold modify. cbn [snd]. split.
  - unfold same_context. cbn. repeat split; auto.
  - exists []. split; [reflexivity|]. split; [cbn; lia | constructor].
Qed.

Lemma behaves_make_request (method path : string) (json : option PyVal)
    (params : option Params) : behaves 1 (_make_request method path json params).
Proof.
  intros w. rewrite make_request_eq.
  destruct (encoded json) as [content|]; cbn [snd].
  - destruct (after_request_frame (the_request w method path params content) w)
      as (Hr & _ & Hs & Hu & Hl & Ha & Hw). cbn zeta in *.
    split.
    + unfold same_context. repeat split; try assumption. right. reflexivity.
    + exists [the_request w method path params content]. split; [exact Hw|].
      split; [cbn; lia|]. constructor; [|constructor].
      split; [reflexivity|]. exists path. reflexivity.
  - split; [apply same_context_refl|]. apply (sends_le 0); [lia | apply sends_refl].
Qed.

Lemma behaves_mapM_lift {A B} (f : A -> Result B) (l : list A) :
  behaves 0 (mapM (fun a => lift (f a)) l).
Proof.
  induction l as [|a l IH]; cbn [mapM]; [apply behaves_ret|].
  apply (behaves_bind 0 0); [apply behaves_lift|]. intros b.
  apply (behaves_bind 0 0); [exact IH|]. intros bs. apply behaves_ret.
Qed.

Ltac quiet :=
  lazymatch goal with
  | |- behaves 0 (bind _ _) => apply (behaves_bind 0 0); [quiet | intros ?; quiet]
  | |- behaves 0 (ret _) => apply behaves_ret
  | |- behaves 0 (raise _) => apply behaves_raise
  | |- behaves 0 (lift _) => apply behaves_lift
  | |- behaves 0 (gets _) => apply behaves_gets
  | |- behaves 0 _raise_for_running => apply behaves_gate
  | |- behaves 0 (modify (with_max_batch_size _)) => apply behaves_set_max_batch_size
  | |- behaves 0 (mapM _ _) => apply behaves_mapM_lift
  | |- behaves 0 (match ?x with _ => _ end) => destruct x; quiet
  end.

Ltac one_request :=
  lazymatch goal with
  | |- behaves 1 (_make_request _ _ _ _) => apply behaves_make_request
  | |- behaves 1 (bind (_make_request _ _ _ _) _) =>
      apply (behaves_le (1 + 0)); [lia|];
      apply behaves_bind; [apply behaves_make_request | intros ?; quiet]
  | |- behaves 1 (bind _ _) => apply (behaves_bind 0 1); [quiet | intros ?; one_request]
  | |- behaves 1 (match ?x with _ => _ end) => destruct x; one_request
  | |- behaves 1 _ => apply (behaves_le 0); [lia | quiet]
  end.

Lemma behaves_get (collection_id : UUID) (ids : option (list string)) (where_ : PyVal)
    (sort : option string) (limit offset page page_size : option Z)
    (where_document : PyVal) (include : list string) :
  behaves 1 (_get collection_id ids where_ sort limit offset page page_size where_document
               include).
Proof. unfold _get. one_request. Qed.

Lemma behaves_create_collection (name : string)
    (configuration : option CollectionConfigurationInternal) (metadata : option PyVal)
    (get_or_create : bool) (tenant database : string) :
  behaves 1 (create_collection name configuration metadata get_or_create tenant database).
Proof. unfold create_collection. one_request. Qed.

Lemma behaves_get_max_batch_size : behaves 1 get_max_batch_size.
Proof.
  unfold get_max_batch_size.
  apply (behaves_bind 0 1); [quiet|]. intros _.
  apply (behaves_bind 0 1); [quiet|]. intros cached.
  apply (behaves_le (1 + 0)); [lia|]. apply behaves_bind; [|intros _; quiet].
  destruct (py_eq_minus_one cached); one_request.
Qed.

Lemma behaves_submit_batch (batch : Batch) (url : string) :
  behaves 1 (_submit_batch batch url).
Proof. unfold _submit_batch. destruct batch as [[[[ids e] md] d] u]. one_request. Qed.

Lemma behaves_invoke (c : BatchCall) : behaves 2 (invoke c).
Proof.
  assert (Hbody : forall (batch : Batch) (url : string),
    behaves 2 (max_batch_size <- get_max_batch_size ;;
               lift (validate_batch batch [("max_batch_size", max_batch_size)]) ;;
               _submit_batch batch url ;;
               ret true)).
  { intros batch url.
    apply (behaves_bind 1 1); [apply behaves_get_max_batch_size|]. intros m.
    apply (behaves_bind 0 1); [quiet|]. intros _.
    apply (behaves_le (1 + 0)); [lia|].
    apply behaves_bind; [apply behaves_submit_batch | intros _; quiet]. }
  destruct c; cbn [invoke]; [unfold _add | unfold _update | unfold _upsert];
    (apply (behaves_bind 0 2); [quiet|]); intros _; cbn zeta; apply Hbody.
Qed.

Ltac dropped :=
  apply (behaves_le (1 + 0)); [lia|]; apply behaves_bind; [|intros ?; quiet].

Lemma behaves_perform (op : Operation) : behaves (budget op) (perform op).
Proof.
  destruct op; cbn [perform budget].
  - dropped. unfold heartbeat. one_request.
  - unfold create_database. one_request.
  - dropped. unfold get_database. one_request.
  - unfold create_tenant. one_request.
  - dropped. unfold get_tenant. one_request.
  - dropped. unfold list_collections. one_request.
  - dropped. unfold count_collections. one_request.
  - dropped. apply behaves_create_collection.
  - dropped. unfold get_collection. cbn zeta. one_request.
  - dropped. unfold get_or_create_collection.
    apply (behaves_bind 0 1); [quiet|]. intros _. apply behaves_create_collection.
  - unfold _modify. one_request.
  - unfold delete_collection. one_request.
  - dropped. unfold _count. one_request.
  - dropped. unfold _peek.
    apply (behaves_bind 0 1); [quiet|]. intros _. apply behaves_get.
  - dropped. apply behaves_get.
  - unfold _delete. one_request.
  - dropped. apply behaves_submit_batch.
  - apply (behaves_le (2 + 0)); [lia|].
    apply behaves_bind; [apply behaves_invoke | intros ?; quiet].
  - dropped. unfold _query. one_request.
  - dropped. unfold reset. one_request.
  - dropped. unfold get_version. one_request.
  - dropped. apply behaves_get_max_batch_size.
  - unfold get_settings. apply (behaves_bind 0 0); [quiet | intros ?; quiet].
Qed.

Lemma behaves_session (ops : list Operation) (w : World) :
  same_context w (session ops w) /\ sends (session_budget ops) w (session ops w).
Proof.
  revert w. induction ops as [|op ops IH]; intros w; cbn [session session_budget].
  - split; [apply same_context_refl | apply sends_refl].
  - destruct (behaves_perform op w) as [Hc Hs].
    destruct (IH (snd (perform op w))) as [Hc' Hs']. split.
    + now apply (same_context_trans w (snd (perform op w))).
    + now apply (sends_trans _ _ w (snd (perform op w))).
Qed.

Lemma same_context_heap_next (w w' : World) :
  same_context w w' -> (heap_next w <= heap_next w' <= S (heap_next w))%nat.
Proof.
  intros (_ & _ & _ & _ & _ & [Hr|Hr]).
  - apply registry_fields in Hr as [_ ->]. lia.
  - rewrite get_client_registry in Hr.
    destruct (_clients w !! loop_hash_of (event_loop w)).
    + apply registry_fields in Hr as [_ ->]. lia.
    + unfold registry in Hr. injection Hr as _ ->. lia.
Qed.

(** ** The bookkeeping of connections *)

Lemma values_in (m : gmap Z Conn) (c : Conn) :
  In c (map snd (popitem_order m)) <-> exists k, m !! k = Some c.
Proof.
  rewrite in_map_iff. split.
  - intros ([k c'] & Hc & Hin). cbn in Hc. subst c'. exists k.
    now apply popitem_order_elem.
  - intros (k & Hk). exists (k, c). split; [reflexivity|].
    now apply popitem_order_elem.
Qed.

Lemma values_nodup (m : gmap Z Conn) :
  (forall k1 k2 c, m !! k1 = Some c -> m !! k2 = Some c -> k1 = k2) ->
  List.NoDup (map snd (popitem_order m)).
Proof.
  intros Hinj. apply NoDup_ListNoDup.
  change (map snd (popitem_order m)) with (snd <$> popitem_order m).
  apply NoDup_fmap_2_strong.
  - intros [k1 c1] [k2 c2] H1 H2 Hc. cbn in Hc. subst c2.
    apply list_elem_of_In, popitem_order_elem in H1, H2.
    now rewrite (Hinj k1 k2 c1 H1 H2).
  - unfold popitem_order. rewrite merge_sort_Permutation. apply NoDup_map_to_list.
Qed.

Lemma conn_ok_ext (w1 w2 : World) :
  registry w1 = registry w2 -> aclosed w1 = aclosed w2 -> conn_ok w1 -> conn_ok w2.
Proof.
  intros [Hc Hh]%registry_fields Ha. unfold conn_ok, registry_ok.
  now rewrite Hc, Hh, Ha.
Qed.

Lemma conn_ok_get_client (w : World) : conn_ok w -> conn_ok (snd (_get_client w)).
Proof.
  intros (Hok & Hb & Hnd & Hopen & Hall).
  destruct (get_client_frame w) as (_ & _ & _ & _ & _ & Ha & _). cbn zeta in Ha.
  pose proof (get_client_registry w) as Hr.
  destruct (_clients w !! loop_hash_of (event_loop w)) as [c|] eqn:E.
  - apply (conn_ok_ext w); [now symmetry | now symmetry |]. unfold conn_ok. tauto.
  - unfold registry in Hr. injection Hr as Hc Hh.
    unfold conn_ok, registry_ok. rewrite Hc, Hh, Ha.
    destruct Hok as [Hbound Hinj]. repeat split.
    + intros k c. destruct (decide (loop_hash_of (event_loop w) = k)) as [<-|Hne].
      * rewrite lookup_insert_eq. intros [= <-]. lia.
      * rewrite lookup_insert_ne by assumption. intros Hk. specialize (Hbound k c Hk). lia.
    + intros k1 k2 c.
      destruct (decide (loop_hash_of (event_loop w) = k1)) as [<-|Hne1],
               (decide (loop_hash_of (event_loop w) = k2)) as [<-|Hne2];
        rewrite ?lookup_insert_eq, ?lookup_insert_ne by assumption.
      * reflexivity.
      * intros [= <-] Hk. specialize (Hbound k2 _ Hk). lia.
      * intros Hk [= <-]. specialize (Hbound k1 _ Hk). lia.
      * apply Hinj.
    + intros c Hc'. specialize (Hb c Hc'). lia.
    + exact Hnd.
    + intros k c. destruct (decide (loop_hash_of (event_loop w) = k)) as [<-|Hne].
      * rewrite lookup_insert_eq. intros [= <-] Hin. specialize (Hb _ Hin). lia.
      * rewrite lookup_insert_ne by assumption. apply Hopen.
    + intros c Hlt. destruct (decide (c = heap_next w)) as [->|Hne].
      * right. exists (loop_hash_of (event_loop w)). apply lookup_insert_eq.
      * destruct (Hall c) as [Hin|(k & Hk)]; [lia | now left |].
        right. exists k. rewrite lookup_insert_ne; [assumption|].
        intros <-. enough (Some c = @None Conn) by discriminate.
        etransitivity; [symmetry; exact Hk | exact E].
Qed.

Lemma conn_ok_same_context (w w' : World) : same_context w w' -> conn_ok w -> conn_ok w'.
Proof.
  intros (_ & _ & _ & _ & Ha & [Hr|Hr]) Hok.
  - apply (conn_ok_ext w); [now symmetry | now symmetry | exact Hok].
  - apply (conn_ok_ext (snd (_get_client w))); [now symmetry | | now apply conn_ok_get_client].
    destruct (get_client_frame w) as (_ & _ & _ & _ & _ & Ha' & _). cbn zeta in Ha'.
    congruence.
Qed.

Lemma conn_ok_client_open (w : World) : conn_ok w -> ~ In (client_of w) (aclosed w).
Proof.
  intros (_ & Hb & _ & Hopen & _). unfold client_of.
  destruct (_clients w !! loop_hash_of (event_loop w)) as [c|] eqn:E.
  - now apply (Hopen _ _ E).
  - intros Hin. specialize (Hb _ Hin). lia.
Qed.

Lemma conn_ok_cleanup (w : World) :
  conn_ok w ->
  conn_ok (snd (_cleanup w))
  /\ (forall c, (c < heap_next (snd (_cleanup w)))%nat -> In c (aclosed (snd (_cleanup w)))).
Proof.
  intros ([Hbound Hinj] & Hb & Hnd & Hopen & Hall). rewrite cleanup_eq. cbn [snd].
  unfold conn_ok. cbn [with_clients with_aclosed _clients aclosed heap_next].
  assert (Hin : forall c, In c (rev (map snd (popitem_order (_clients w))) ++ aclosed w)
                          <-> (exists k, _clients w !! k = Some c) \/ In c (aclosed w)).
  { intros c. now rewrite in_app_iff, <- in_rev, values_in. }
  assert (Hclosed : forall c, (c < heap_next w)%nat ->
                      In c (rev (map snd (popitem_order (_clients w))) ++ aclosed w)).
  { intros c Hlt. apply Hin. destruct (Hall c Hlt) as [?|?]; [now right | now left]. }
  split; [|exact Hclosed]. split; [|split; [|split; [|split]]].
  - apply registry_ok_empty. reflexivity.
  - intros c [(k & Hk)|Hc]%Hin; [exact (Hbound _ _ Hk) | exact (Hb _ Hc)].
  - apply NoDup_ListNoDup, NoDup_app. split; [|split].
    + apply NoDup_ListNoDup, List.NoDup_rev, values_nodup, Hinj.
    + intros c Hc%list_elem_of_In Hc'%list_elem_of_In.
      apply in_rev, values_in in Hc as (k & Hk). exact (Hopen _ _ Hk Hc').
    + now apply NoDup_ListNoDup.
  - intros k c. rewrite lookup_empty. discriminate.
  - intros c Hlt. left. now apply Hclosed.
Qed.

Lemma conn_ok_init (w : World) :
  _clients w = ∅ -> heap_next w = O -> aclosed w = [] -> conn_ok w.
Proof.
  intros Hc Hh Ha. unfold conn_ok. rewrite Ha, Hh.
  split; [now apply registry_ok_empty|]. split; [intros c []|].
  split; [constructor|]. split; [intros k c _ []|]. intros c Hlt. lia.
Qed.

(** X1: one call of a public operation puts at most one request on the wire,
    two for add, update and upsert (the pre-flight fetch and the submission)
    and none for [get_settings]; it never retries.  Whatever the outcome, the
    requests already on the wire stay, each new request goes over the
    connection of the calling context to the base URL followed by a
    percent-encoded path, and the lifecycle state, the settings, the base
    URL and the closed connections are untouched. *)
Theorem operation_footprint (op : Operation) (w : World) :
  let w' := snd (perform op w) in
  _running w' = _running w /\ _settings w' = _settings w /\ _api_url w' = _api_url w
  /\ aclosed w' = aclosed w
  /\ exists new,
       wire w' = new ++ wire w /\ (length new <= budget op)%nat
       /\ Forall (fun r => req_client r = client_of w
                           /\ exists path, req_url r = _api_url w +:+ quote path "/") new.
Proof.
  cbn zeta. destruct (behaves_perform op w) as [(Hr & Hs & Hu & _ & Ha & _) Hsends].
  repeat (split; [assumption|]). exact Hsends.
Qed.

(** X2: however many operations a client performs from one execution
    context, and however they end, they allocate at most one connection and
    every request they send goes over that one connection; the connection
    table is the one before the session or the one after a single
    [_get_client]. *)
Theorem session_uses_one_connection (ops : list Operation) (w : World) :
  let w' := session ops w in
  (heap_next w <= heap_next w' <= S (heap_next w))%nat
  /\ (registry w' = registry w \/ registry w' = registry (snd (_get_client w)))
  /\ client_of w' = client_of w
  /\ exists new,
       wire w' = new ++ wire w /\ (length new <= session_budget ops)%nat
       /\ Forall (fun r => req_client r = client_of w) new.
Proof.
  cbn zeta. destruct (behaves_session ops w) as [Hc (new & Hw & Hlen & Hall)].
  split; [now apply same_context_heap_next|].
  split; [apply Hc|]. split; [now apply same_context_client_of|].
  exists new. split; [exact Hw|]. split; [exact Hlen|].
  eapply Forall_impl; [exact Hall|]. now intros r [Hr _].
Qed.

(** X3: the bookkeeping of connections is an invariant of every session, and
    under it no request is ever sent over a closed connection: the
    connection of each new request is not among the closed ones. *)
Theorem requests_go_over_open_connections (ops : list Operation) (w : World) :
  conn_ok w ->
  let w' := session ops w in
  conn_ok w'
  /\ exists new,
       wire w' = new ++ wire w
       /\ Forall (fun r => ~ In (req_client r) (aclosed w')) new.
Proof.
  intros Hok. cbn zeta. destruct (behaves_session ops w) as [Hc (new & Hw & _ & Hall)].
  split; [now apply (conn_ok_same_context w)|].
  exists new. split; [exact Hw|].
  destruct Hc as (_ & _ & _ & _ & Ha & _). rewrite Ha.
  eapply Forall_impl; [exact Hall|]. intros r [-> _]. now apply conn_ok_client_open.
Qed.

(** X4: [close] closes every connection the client ever opened.  Under the
    bookkeeping invariant, after [close] the table is empty, every allocated
    connection is among the closed ones, each closed once, and [close] has
    sent no request and allocated nothing. *)
Theorem close_closes_every_connection (w : World) :
  conn_ok w ->
  let w' := snd (close w) in
  conn_ok w' /\ _clients w' = ∅
  /\ (forall c, (c < heap_next w')%nat -> In c (aclosed w'))
  /\ List.NoDup (aclosed w')
  /\ wire w' = wire w /\ heap_next w' = heap_next w.
Proof.
  intros Hok. cbn zeta. rewrite close_eq. cbn [snd].
  destruct (conn_ok_cleanup w Hok) as [Hok' Hall].
  assert (Hok'' : conn_ok (with_running false (snd (_cleanup w)))).
  { now apply (conn_ok_ext (snd (_cleanup w))). }
  split; [exact Hok''|]. rewrite cleanup_eq in *. cbn in *.
  split; [reflexivity|]. split; [exact Hall|].
  split; [apply Hok''|]. split; reflexivity.
Qed.

(** X5: [_cleanup], and [__aexit__] with it, empties the table and closes
    exactly the connections that were in it; it sends no request and leaves
    the lifecycle state alone, so the client stays running; run again, it
    changes nothing. *)
Theorem cleanup_empties_the_table (w : World) :
  let w' := snd (__aexit__ w) in
  __aexit__ w = _cleanup w
  /\ fst (_cleanup w) = Ok tt
  /\ _clients w' = ∅
  /\ (forall c, In c (aclosed w') <-> In c (aclosed w) \/ exists k, _clients w !! k = Some c)
  /\ _running w' = _running w /\ wire w' = wire w /\ heap_next w' = heap_next w
  /\ _cleanup w' = (Ok tt, w').
Proof.
  cbn zeta. unfold __aexit__. rewrite !cleanup_eq. cbn [fst snd].
  split; [reflexivity|]. split; [reflexivity|]. split; [reflexivity|]. split.
  - intros c. cbn [with_clients with_aclosed aclosed].
    rewrite in_app_iff, <- in_rev, values_in. tauto.
  - split; [reflexivity|]. split; [reflexivity|]. split; [reflexivity|].
    cbn [with_clients with_aclosed _clients aclosed]. rewrite popitem_order_empty.
    reflexivity.
Qed.

(** X6: after [__aenter__] the connection of the current execution context
    is in the table, and the operations that follow allocate nothing: they
    all go over the connection [__aenter__] opened. *)
Theorem aenter_opens_the_connection (ops : list Operation) (w : World) :
  let w1 := snd (__aenter__ w) in
  let w' := session ops w1 in
  fst (__aenter__ w) = Ok tt
  /\ _clients w1 !! loop_hash_of (event_loop w1) = Some (client_of w)
  /\ wire w1 = wire w
  /\ registry w' = registry w1
  /\ exists new,
       wire w' = new ++ wire w /\ Forall (fun r => req_client r = client_of w) new.
Proof.
  cbn zeta. unfold __aenter__, bind, ret.
  pose proof (get_client_fst w) as Hf. pose proof (client_of_get_client w) as Hcl.
  destruct (get_client_frame w) as (_ & _ & _ & _ & Hl & _ & Hw). cbn zeta in *.
  pose proof (get_client_registry w) as Hr.
  destruct (_get_client w) as [r w1]. cbn [fst snd] in *. subst r. cbn [fst snd].
  assert (Hin : _clients w1 !! loop_hash_of (event_loop w1) = Some (client_of w)).
  { rewrite Hl. unfold client_of. unfold registry in Hr.
    destruct (_clients w !! loop_hash_of (event_loop w)) as [c|] eqn:E.
    - injection Hr as -> _. exact E.
    - injection Hr as -> _. apply lookup_insert_eq. }
  split; [reflexivity|]. split; [exact Hin|]. split; [exact Hw|].
  destruct (behaves_session ops w1) as [Hc (new & Hw' & _ & Hall)].
  split.
  - destruct Hc as (_ & _ & _ & _ & _ & [Hreg|Hreg]); [exact Hreg|].
    rewrite Hreg, get_client_registry. now rewrite Hin.
  - exists new. split; [now rewrite Hw', Hw|].
    eapply Forall_impl; [exact Hall|]. intros r [-> _]. exact Hcl.
Qed.

(** ** Paths and URLs *)

Lemma unquote_quote_byte (c : ascii) (t : string) :
  unquote (quote_byte "/" c +:+ t) = String c (unquote t).
Proof.
  destruct c as [b0 b1 b2 b3 b4 b5 b6 b7].
  destruct b0, b1, b2, b3, b4, b5, b6, b7; reflexivity.
Qed.

Lemma unquote_quote (s : string) : unquote (quote s "/") = s.
Proof.
  induction s as [|c s IH]; [reflexivity|].
  cbn [quote]. now rewrite unquote_quote_byte, IH.
Qed.

(** X7: the percent-encoding of the path loses nothing: it can be decoded
    back, so two different paths never give the same encoded path, and two
    requests of one client with different paths never go to the same
    URL. *)
Theorem distinct_paths_have_distinct_urls (w : World) (method1 method2 path1 path2 : string)
    (params1 params2 : option Params) (content1 content2 : option string) :
  unquote (quote path1 "/") = path1
  /\ (quote path1 "/" = quote path2 "/" -> path1 = path2)
  /\ (req_url (the_request w method1 path1 params1 content1)
      = req_url (the_request w method2 path2 params2 content2) -> path1 = path2).
Proof.
  assert (Hinj : quote path1 "/" = quote path2 "/" -> path1 = path2).
  { intros Heq. apply (f_equal unquote) in Heq. now rewrite !unquote_quote in Heq. }
  split; [apply unquote_quote|]. split; [exact Hinj|].
  cbn [the_request req_url]. intros Heq. apply String.app_inj in Heq. now apply Hinj.
Qed.

(** ** get, query and their wrappers *)

(** X8: unless page and page size are both given and both different from
    zero, [_get] ignores them: the call is the call without page and page
    size, with the limit and the offset of the caller. *)
Theorem get_ignores_incomplete_paging (w : World) (collection_id : UUID)
    (ids : option (list string)) (where_ : PyVal) (sort : option string)
    (limit offset page page_size : option Z) (where_document : PyVal)
    (include : list string) :
  page = None \/ page_size = None \/ page = Some 0 \/ page_size = Some 0 ->
  _get_paging limit offset page page_size = (offset, limit)
  /\ _get collection_id ids where_ sort limit offset page page_size where_document include w
     = _get collection_id ids where_ sort limit offset None None where_document include w.
Proof.
  intros Hp.
  assert (Hpg : _get_paging limit offset page page_size = (offset, limit)).
  { unfold _get_paging. destruct page as [p|]; [|reflexivity].
    destruct page_size as [ps|]; [|reflexivity].
    destruct Hp as [Hp|[Hp|[Hp|Hp]]]; try discriminate; injection Hp as ->.
    - reflexivity.
    - cbn. now rewrite andb_false_r. }
  split; [exact Hpg|]. unfold _get. now rewrite Hpg.
Qed.

(** X9: a response to get or query that is a dict without the key [ids]
    raises KeyError for [ids], whatever else it holds, and a response that
    is not a dict raises TypeError; either way the request has been sent. *)
Theorem results_need_the_ids (w : World) (collection_id : UUID) (where_ where_document : PyVal)
    (include : list string) (data : string) (resp_json : PyVal) :
  _running w = true ->
  (forall items, resp_json = PDict items -> dict_lookup "ids" items = None) ->
  let failure := match resp_json with
                 | PDict _ => KeyError "ids"
                 | _ => TypeError
                 end in
  (forall ids sort limit offset page page_size,
     let pg := _get_paging limit offset page page_size in
     let path := "/collections/" +:+ uuid_str collection_id +:+ "/get" in
     orjson_dumps (_get_json ids where_ sort (snd pg) (fst pg) where_document include)
     = Some data ->
     replies w "post" path None (Some data) resp_json ->
     _get collection_id ids where_ sort limit offset page page_size where_document include w
     = (Raise failure, after_request (the_request w "post" path None (Some data)) w))
  /\ (forall query_embeddings n_results,
     let path := "/collections/" +:+ uuid_str collection_id +:+ "/query" in
     orjson_dumps (_query_json query_embeddings n_results where_ where_document include)
     = Some data ->
     replies w "post" path None (Some data) resp_json ->
     _query collection_id query_embeddings n_results where_ where_document include w
     = (Raise failure, after_request (the_request w "post" path None (Some data)) w)).
Proof.
  intros Hr Hids. cbn zeta.
  assert (Hg : GetResult_of resp_json (of_strs include)
               = Raise match resp_json with PDict _ => KeyError "ids" | _ => TypeError end).
  { destruct resp_json; try reflexivity.
    unfold GetResult_of, getitem. now rewrite (Hids _ eq_refl). }
  assert (Hq : QueryResult_of resp_json (of_strs include)
               = Raise match resp_json with PDict _ => KeyError "ids" | _ => TypeError end).
  { destruct resp_json; try reflexivity.
    unfold QueryResult_of, getitem. now rewrite (Hids _ eq_refl). }
  split.
  - intros ids sort limit offset page page_size Hd Hrep.
    rewrite get_eq by exact Hr. cbn zeta. unfold encoded. rewrite Hd.
    rewrite (replies_outcome _ _ _ _ _ _ Hrep). cbn [and_then]. now rewrite Hg.
  - intros query_embeddings n_results Hd Hrep.
    rewrite query_eq by exact Hr. unfold encoded. rewrite Hd. cbn zeta.
    rewrite (replies_outcome _ _ _ _ _ _ Hrep). cbn [and_then]. now rewrite Hq.
Qed.

Lemma gate_twice {A} (k : M A) (w : World) :
  (_raise_for_running ;; _raise_for_running ;; k) w = (_raise_for_running ;; k) w.
Proof.
  destruct (_running w) eqn:Hr.
  - now rewrite !gate_running by exact Hr.
  - pose proof (gate_stopped (_raise_for_running ;; k) w Hr) as H1.
    pose proof (gate_stopped k w Hr) as H2. unfold fails_fast in *. congruence.
Qed.

(** X10: the two wrappers add nothing of their own.  In every world
    [get_or_create_collection] is [create_collection] with
    [get_or_create=True], and [_peek] is [_get] with the limit [n], no ids,
    empty filters, no offset or paging and the include list embeddings,
    documents, metadatas. *)
Theorem wrappers_delegate (w : World) :
  (forall name configuration metadata tenant database,
     get_or_create_collection name configuration metadata tenant database w
     = create_collection name configuration metadata true tenant database w)
  /\ (forall collection_id n,
        _peek collection_id n w
        = _get collection_id None (PDict []) None (Some n) None None None (PDict [])
            ["embeddings"; "documents"; "metadatas"] w).
Proof.
  split.
  - intros. unfold get_or_create_collection, create_collection. apply gate_twice.
  - intros. unfold _peek, _get. apply gate_twice.
Qed.

(** ** Bulk mutations *)

Lemma invoke_unfold (c : BatchCall) (w : World) :
  _running w = true ->
  invoke c w =
  (max_batch_size <- get_max_batch_size ;;
   lift (validate_batch (batch_of c) [("max_batch_size", max_batch_size)]) ;;
   _submit_batch (batch_of c) (submit_path c) ;;
   ret true) w.
Proof.
  intros Hr. destruct c; cbn [invoke batch_of submit_path];
    [unfold _add | unfold _update | unfold _upsert];
    now rewrite gate_running by exact Hr.
Qed.

Lemma submit_batch_eq (batch : Batch) (url : string) (w : World) :
  _running w = true ->
  _submit_batch batch url w =
  match encoded (Some (batch_json batch)) with
  | Some content =>
      let r := the_request w "post" url None content in
      (outcome w r, after_request r w)
  | None => (Raise JSONEncodeError, w)
  end.
Proof.
  intros Hr. unfold _submit_batch. rewrite gate_running by exact Hr.
  destruct batch as [[[[ids e] md] d] u]. now rewrite make_request_eq.
Qed.

(** X11: when the answer to the pre-flight request is a dict without the
    key [max_batch_size], [get_max_batch_size] raises KeyError for it after
    the request was sent and stores nothing: the maximum stays unfetched.
    An add, update or upsert made then raises the same error and submits
    nothing. *)
Theorem preflight_without_the_maximum (w : World) (items : list (string * PyVal)) :
  _running w = true ->
  py_eq_minus_one (_max_batch_size w) = true ->
  replies w "get" "/pre-flight-checks" None None (PDict items) ->
  dict_lookup "max_batch_size" items = None ->
  let fetch := the_request w "get" "/pre-flight-checks" None None in
  get_max_batch_size w = (Raise (KeyError "max_batch_size"), after_request fetch w)
  /\ _max_batch_size (after_request fetch w) = _max_batch_size w
  /\ wire (after_request fetch w) = fetch :: wire w
  /\ (forall c, invoke c w = (Raise (KeyError "max_batch_size"), after_request fetch w)).
Proof.
  intros Hr Hc Hrep Hmiss. cbn zeta.
  assert (Hcall : get_max_batch_size w
                  = (Raise (KeyError "max_batch_size"),
                     after_request (the_request w "get" "/pre-flight-checks" None None) w)).
  { rewrite get_max_batch_size_fetch by assumption. cbn zeta.
    rewrite (replies_outcome _ _ _ _ _ _ Hrep). cbn [and_then getitem].
    now rewrite Hmiss. }
  destruct (after_request_frame (the_request w "get" "/pre-flight-checks" None None) w)
    as (_ & Hm & _ & _ & _ & _ & Hw). cbn zeta in *.
  split; [exact Hcall|]. split; [exact Hm|]. split; [exact Hw|].
  intros c. rewrite invoke_unfold by exact Hr. unfold bind at 1. now rewrite Hcall.
Qed.

(** X12: on a running client with the maximum cached, a batch that the
    validation rejects, for whatever reason, is not submitted: add, update
    and upsert raise the error of the validation, send nothing and leave the
    world as it was. *)
Theorem invalid_batch_is_not_submitted (c : BatchCall) (w : World) (e : Exn) :
  _running w = true ->
  py_eq_minus_one (_max_batch_size w) = false ->
  validate_batch (batch_of c) [("max_batch_size", _max_batch_size w)] = Raise e ->
  invoke c w = (Raise e, w).
Proof.
  intros Hr Hc Hv. rewrite invoke_unfold by exact Hr.
  unfold bind at 1. rewrite get_max_batch_size_cached by assumption.
  unfold bind at 1. unfold lift. now rewrite Hv.
Qed.

(** X13: on a running client with the maximum cached, a batch that passes
    the validation is submitted as exactly one POST to
    [/collections/{id}/add], [/update] or [/upsert], whose body holds the
    five fields of the batch; the operation returns True whenever the
    dispatch succeeds, whatever the server sent back, and raises the error
    of the dispatch otherwise. *)
Theorem valid_batch_is_submitted_once (c : BatchCall) (w : World) (data : string) :
  _running w = true ->
  py_eq_minus_one (_max_batch_size w) = false ->
  validate_batch (batch_of c) [("max_batch_size", _max_batch_size w)] = Ok tt ->
  orjson_dumps (batch_json (batch_of c)) = Some data ->
  let r := the_request w "post" (submit_path c) None (Some data) in
  invoke c w = (and_then (outcome w r) (fun _ => Ok true), after_request r w)
  /\ wire (after_request r w) = r :: wire w
  /\ (forall v, outcome w r = Ok v -> fst (invoke c w) = Ok true).
Proof.
  intros Hr Hc Hv Hd. cbn zeta.
  assert (Hcall : invoke c w
                  = (and_then (outcome w (the_request w "post" (submit_path c) None
                                            (Some data))) (fun _ => Ok true),
                     after_request (the_request w "post" (submit_path c) None (Some data))
                       w)).
  { rewrite invoke_unfold by exact Hr.
    unfold bind at 1. rewrite get_max_batch_size_cached by assumption.
    unfold bind at 1. unfold lift at 1. rewrite Hv.
    unfold bind. rewrite submit_batch_eq by exact Hr. unfold encoded. rewrite Hd.
    cbn zeta. now destruct (outcome _ _). }
  split; [exact Hcall|]. split; [apply after_request_frame|].
  intros v Hv'. rewrite Hcall. cbn [fst]. now rewrite Hv'.
Qed.

(** X14: with the maximum still unfetched, a batch that passes the
    validation against the fetched maximum puts two requests on the wire, in
    this order and over the same connection: the pre-flight GET, then the
    POST of the batch. *)
Theorem first_batch_fetches_then_submits (c : BatchCall) (w : World) (data : string)
    (resp_json v : PyVal) :
  _running w = true ->
  py_eq_minus_one (_max_batch_size w) = true ->
  replies w "get" "/pre-flight-checks" None None resp_json ->
  getitem resp_json "max_batch_size" = Ok v ->
  validate_batch (batch_of c) [("max_batch_size", v)] = Ok tt ->
  orjson_dumps (batch_json (batch_of c)) = Some data ->
  let fetch := the_request w "get" "/pre-flight-checks" None None in
  exists post,
    wire (snd (invoke c w)) = post :: fetch :: wire w
    /\ req_method post = "post"
    /\ req_url post = _api_url w +:+ quote (submit_path c) "/"
    /\ req_content post = Some data
    /\ req_client post = req_client fetch
    /\ _max_batch_size (snd (invoke c w)) = v.
Proof.
  intros Hr Hc Hrep Hget Hv Hd. cbn zeta.
  destruct (get_max_batch_size_fetched w resp_json v Hr Hc Hrep Hget) as [Hcall Hwire].
  cbn zeta in *.
  set (fetch := the_request w "get" "/pre-flight-checks" None None) in *.
  set (w1 := with_max_batch_size v (after_request fetch w)) in *.
  destruct (after_request_frame fetch w) as (Hr1 & _ & _ & Hu1 & Hl1 & _ & _).
  cbn zeta in *.
  assert (Hrun1 : _running w1 = true).
  { unfold w1, with_max_batch_size. cbn [_running]. now rewrite Hr1. }
  assert (Hsnd : snd (invoke c w)
                 = after_request (the_request w1 "post" (submit_path c) None (Some data))
                     w1).
  { rewrite invoke_unfold by exact Hr. unfold bind at 1. rewrite Hcall.
    unfold bind at 1. unfold lift at 1. rewrite Hv.
    unfold bind. rewrite submit_batch_eq by exact Hrun1. unfold encoded. rewrite Hd.
    cbn zeta. now destruct (outcome _ _). }
  destruct (after_request_frame (the_request w1 "post" (submit_path c) None (Some data)) w1)
    as (_ & Hm2 & _ & _ & _ & _ & Hw2). cbn zeta in *.
  exists (the_request w1 "post" (submit_path c) None (Some data)).
  rewrite Hsnd. split; [now rewrite Hw2, Hwire|]. split; [reflexivity|].
  split; [cbn [the_request req_url]; f_equal; exact Hu1|].
  split; [reflexivity|]. split; [exact (client_of_get_client w)|].
  etransitivity; [exact Hm2 | reflexivity].
Qed.

(** ** Reads *)

(** X15: on a running client, [get_collection] by name with no id sends one
    GET with the query parameters tenant and database and no [type], and
    returns the collection built from the decoded response.  The path is
    [/collections/] followed by the name when the name is not empty; for the
    empty name, which passes the validation, the path is the text [None]. *)
Theorem get_collection_by_name (w : World) (name tenant database : string) :
  _running w = true ->
  let path := if String.eqb name "" then "None" else "/collections/" +:+ name in
  let r := the_request w "get" path
             (Some [("tenant", PStr tenant); ("database", PStr database)]) None in
  get_collection (Some name) None tenant database w
  = (and_then (outcome w r) from_json, after_request r w)
  /\ wire (after_request r w) = r :: wire w.
Proof.
  intros Hr. cbn zeta. split; [|apply after_request_frame].
  unfold get_collection. rewrite gate_running by exact Hr.
  unfold bind at 1. unfold ret at 1. unfold bind, lift.
  rewrite make_request_eq. cbn [encoded truthy_str str_opt_uuid]. cbn zeta.
  destruct (String.eqb name ""); cbn [negb]; now destruct (outcome _ _).
Qed.

(** X16: [get_database] and [get_tenant] read their result off the decoded
    response key by key.  When the response is a dict holding the keys, the
    result carries their values unchanged; when a key is missing, the
    operation raises KeyError for the first missing key, in the order id,
    name, tenant, after the request was sent. *)
Theorem reads_take_their_fields_from_the_response (w : World) (name tenant : string)
    (items : list (string * PyVal)) :
  _running w = true ->
  (let r := the_request w "get" ("/databases/" +:+ name) (Some [("tenant", PStr tenant)])
              None in
   replies w "get" ("/databases/" +:+ name) (Some [("tenant", PStr tenant)]) None
     (PDict items) ->
   get_database name tenant w
   = (match dict_lookup "id" items, dict_lookup "name" items, dict_lookup "tenant" items with
      | Some i, Some n, Some t => Ok {| db_id := i; db_name := n; db_tenant := t |}
      | None, _, _ => Raise (KeyError "id")
      | Some _, None, _ => Raise (KeyError "name")
      | Some _, Some _, None => Raise (KeyError "tenant")
      end, after_request r w))
  /\ (let r := the_request w "get" ("/tenants/" +:+ name) None None in
      replies w "get" ("/tenants/" +:+ name) None None (PDict items) ->
      get_tenant name w
      = (match dict_lookup "name" items with
         | Some n => Ok {| tenant_name := n |}
         | None => Raise (KeyError "name")
         end, after_request r w)).
Proof.
  intros Hr. split; cbn zeta; intros Hrep.
  - unfold get_database. rewrite gate_running by exact Hr.
    unfold bind at 1. rewrite make_request_eq. cbn [encoded]. cbn zeta.
    rewrite (replies_outcome _ _ _ _ _ _ Hrep).
    unfold bind, lift, ret, getitem.
    destruct (dict_lookup "id" items); [|reflexivity].
    destruct (dict_lookup "name" items); [|reflexivity].
    now destruct (dict_lookup "tenant" items).
  - unfold get_tenant. rewrite gate_running by exact Hr.
    unfold bind at 1. rewrite make_request_eq. cbn [encoded]. cbn zeta.
    rewrite (replies_outcome _ _ _ _ _ _ Hrep).
    unfold bind, lift, ret, getitem.
    now destruct (dict_lookup "name" items).
Qed.

Lemma quote_plain (s : string) :
  forallb (fun c => always_safe c || mem_ascii c "/") (list_ascii_of_string s) = true ->
  quote s "/" = s.
Proof.
  induction s as [|c s IH]; [reflexivity|].
  cbn [list_ascii_of_string forallb quote]. intros [Hc Hs]%andb_true_iff.
  unfold quote_byte. rewrite Hc. rewrite append_cons. now rewrite IH.
Qed.

Lemma plain_of_safe (s : string) :
  forallb always_safe (list_ascii_of_string s) = true ->
  forallb (fun c => always_safe c || mem_ascii c "/") (list_ascii_of_string s) = true.
Proof.
  rewrite !forallb_forall. intros Hs c Hc. now rewrite (Hs c Hc).
Qed.

Lemma plain_uuid_str (u : UUID) :
  forallb (fun c => always_safe c || mem_ascii c "/") (list_ascii_of_string (uuid_str u))
  = true.
Proof.
  apply plain_of_safe. unfold uuid_str. cbn zeta.
  repeat (apply safe_append;
          [first [apply safe_substring, safe_hex_lower | reflexivity]|]).
  apply safe_substring, safe_hex_lower.
Qed.

Lemma quote_collection_path (u : UUID) (suffix : string) :
  forallb (fun c => always_safe c || mem_ascii c "/") (list_ascii_of_string suffix) = true ->
  quote ("/collections/" +:+ uuid_str u +:+ suffix) "/"
  = "/collections/" +:+ uuid_str u +:+ suffix.
Proof.
  intros Hs. apply quote_plain. rewrite !chars_append, !forallb_app.
  now rewrite plain_uuid_str, Hs.
Qed.

(** X17: [count_collections], [_count], [reset] and [get_version] return the
    decoded body of the response as it is, of whatever type it is, after one
    request with no body; the URL of [_count] is the base URL followed by
    [/collections/], the uuid unescaped and [/count]. *)
Theorem plain_reads_return_the_body (w : World) (v : PyVal) :
  _running w = true ->
  (forall tenant database,
     let r := the_request w "get" "/count_collections"
                (Some [("tenant", PStr tenant); ("database", PStr database)]) None in
     outcome w r = Ok v ->
     count_collections tenant database w = (Ok v, after_request r w))
  /\ (forall collection_id,
        let r := the_request w "get" ("/collections/" +:+ uuid_str collection_id +:+ "/count")
                   None None in
        req_url r = _api_url w +:+ "/collections/" +:+ uuid_str collection_id +:+ "/count"
        /\ (outcome w r = Ok v -> _count collection_id w = (Ok v, after_request r w)))
  /\ (let r := the_request w "post" "/reset" None None in
      outcome w r = Ok v -> reset w = (Ok v, after_request r w))
  /\ (let r := the_request w "get" "/version" None None in
      outcome w r = Ok v -> get_version w = (Ok v, after_request r w)).
Proof.
  intros Hr. split; [|split; [|split]]; cbn zeta.
  - intros tenant database Ho. unfold count_collections.
    rewrite gate_running by exact Hr. rewrite make_request_eq. cbn [encoded]. cbn zeta.
    now rewrite Ho.
  - intros collection_id. split.
    + cbn [the_request req_url]. now rewrite quote_collection_path.
    + intros Ho. unfold _count. rewrite gate_running by exact Hr.
      rewrite make_request_eq. cbn [encoded]. cbn zeta. now rewrite Ho.
  - intros Ho. unfold reset. rewrite gate_running by exact Hr.
    rewrite make_request_eq. cbn [encoded]. cbn zeta. now rewrite Ho.
  - intros Ho. unfold get_version. rewrite gate_running by exact Hr.
    rewrite make_request_eq. cbn [encoded]. cbn zeta. now rewrite Ho.
Qed.

Lemma mapM_lift_ok {A B} (f : A -> Result B) (l : list A) (bs : list B) (w : World) :
  Forall2 (fun a b => f a = Ok b) l bs ->
  mapM (fun a => lift (f a)) l w = (Ok bs, w).
Proof.
  intros Hall. induction Hall as [|a b l bs Hab _ IH]; [reflexivity|].
  cbn [mapM]. unfold bind at 1. unfold lift at 1. rewrite Hab.
  unfold bind at 1. now rewrite IH.
Qed.

Lemma mapM_lift_raise {A B} (f : A -> Result B) (l1 l2 : list A) (a : A) (bs : list B)
    (e : Exn) (w : World) :
  Forall2 (fun a b => f a = Ok b) l1 bs -> f a = Raise e ->
  mapM (fun a => lift (f a)) (l1 ++ a :: l2) w = (Raise e, w).
Proof.
  intros Hall Ha. induction Hall as [|a' b l bs Hab _ IH]; cbn [app mapM].
  - unfold bind at 1. unfold lift at 1. now rewrite Ha.
  - unfold bind at 1. unfold lift at 1. rewrite Hab. unfold bind at 1. now rewrite IH.
Qed.

(** X18: [list_collections] builds one collection per element of the
    response list, in the order of the response, an empty list giving an
    empty result; the first element that the collection model rejects makes
    the whole call raise that error, after the request was sent. *)
Theorem list_collections_maps_the_response (w : World) (limit offset : option Z)
    (tenant database : string) (resp_json : list PyVal) :
  _running w = true ->
  let params := Some (_clean_params [("tenant", PStr tenant); ("database", PStr database);
                                     ("limit", of_opt PInt limit);
                                     ("offset", of_opt PInt offset)]) in
  let r := the_request w "get" "/collections" params None in
  replies w "get" "/collections" params None (PList resp_json) ->
  (forall models,
     Forall2 (fun json_collection model => from_json json_collection = Ok model)
       resp_json models ->
     list_collections limit offset tenant database w = (Ok models, after_request r w))
  /\ (forall before after json_collection models e,
        resp_json = before ++ json_collection :: after ->
        Forall2 (fun json_collection model => from_json json_collection = Ok model)
          before models ->
        from_json json_collection = Raise e ->
        list_collections limit offset tenant database w = (Raise e, after_request r w)).
Proof.
  intros Hr. cbn zeta. intros Hrep.
  pose proof (replies_outcome _ _ _ _ _ _ Hrep) as Ho.
  set (r := the_request w "get" "/collections" _ None) in *.
  assert (Hcall : list_collections limit offset tenant database w
                  = mapM (fun json_collection => lift (from_json json_collection)) resp_json
                      (after_request r w)).
  { unfold list_collections. rewrite gate_running by exact Hr.
    unfold bind at 1. rewrite make_request_eq. cbn [encoded]. cbn zeta.
    fold r. rewrite Ho. unfold bind at 1. unfold lift at 1. reflexivity. }
  split.
  - intros models Hall. rewrite Hcall. now apply mapM_lift_ok.
  - intros before after json_collection models e -> Hall He. rewrite Hcall.
    now apply (mapM_lift_raise _ _ _ _ models).
Qed.

(** ** Writes *)

(** X19: [create_database], [create_tenant], [_modify], [delete_collection]
    and [_delete] send one request and drop the decoded response: they
    return None whenever the dispatch succeeds, whatever the server sent
    back, and raise the error of the dispatch otherwise.  The body is
    decoded all the same, so a success answer whose body does not decode
    raises the decode error although the request went through. *)
Theorem writes_drop_the_response (w : World) :
  _running w = true ->
  (forall name tenant data,
     orjson_dumps (PDict [("name", PStr name)]) = Some data ->
     let r := the_request w "post" "/databases" (Some [("tenant", PStr tenant)])
                (Some data) in
     create_database name tenant w
     = (and_then (outcome w r) (fun _ => Ok tt), after_request r w))
  /\ (forall name data,
        orjson_dumps (PDict [("name", PStr name)]) = Some data ->
        let r := the_request w "post" "/tenants" None (Some data) in
        create_tenant name w = (and_then (outcome w r) (fun _ => Ok tt), after_request r w))
  /\ (forall id new_name new_metadata data,
        orjson_dumps (PDict [("new_metadata", of_opt (fun v => v) new_metadata);
                             ("new_name", of_opt PStr new_name)]) = Some data ->
        let r := the_request w "put" ("/collections/" +:+ uuid_str id) None (Some data) in
        _modify id new_name new_metadata w
        = (and_then (outcome w r) (fun _ => Ok tt), after_request r w))
  /\ (forall name tenant database,
        let r := the_request w "delete" ("/collections/" +:+ name)
                   (Some [("tenant", PStr tenant); ("database", PStr database)]) None in
        delete_collection name tenant database w
        = (and_then (outcome w r) (fun _ => Ok tt), after_request r w))
  /\ (forall collection_id ids where_ where_document data,
        orjson_dumps (PDict [("where", where_); ("ids", of_opt of_strs ids);
                             ("where_document", where_document)]) = Some data ->
        let r := the_request w "post"
                   ("/collections/" +:+ uuid_str collection_id +:+ "/delete") None
                   (Some data) in
        _delete collection_id ids where_ where_document w
        = (and_then (outcome w r) (fun _ => Ok tt), after_request r w))
  /\ (forall r response,
        httpx_request (wire w) r = Some response ->
        is_success (status_code response) = true ->
        orjson_loads (text response) = None ->
        and_then (outcome w r) (fun _ => Ok tt) = Raise JSONDecodeError).
Proof.
  intros Hr. repeat split.
  - intros name tenant data Hd. cbn zeta. unfold create_database.
    rewrite gate_running by exact Hr. unfold bind, ret. rewrite make_request_eq.
    unfold encoded. rewrite Hd. cbn zeta. now destruct (outcome _ _).
  - intros name data Hd. cbn zeta. unfold create_tenant.
    rewrite gate_running by exact Hr. unfold bind, ret. rewrite make_request_eq.
    unfold encoded. rewrite Hd. cbn zeta. now destruct (outcome _ _).
  - intros id new_name new_metadata data Hd. cbn zeta. unfold _modify.
    rewrite gate_running by exact Hr. unfold bind, ret. rewrite make_request_eq.
    unfold encoded. rewrite Hd. cbn zeta. now destruct (outcome _ _).
  - intros name tenant database. cbn zeta. unfold delete_collection.
    rewrite gate_running by exact Hr. unfold bind, ret. rewrite make_request_eq.
    cbn [encoded]. cbn zeta. now destruct (outcome _ _).
  - intros collection_id ids where_ where_document data Hd. cbn zeta. unfold _delete.
    rewrite gate_running by exact Hr. unfold bind, ret. rewrite make_request_eq.
    unfold encoded. rewrite Hd. cbn zeta. now destruct (outcome _ _).
  - intros r response Hresp Hs Hl. unfold outcome. now rewrite Hresp, Hs, Hl.
Qed.

Lemma append_empty (s : string) : s +:+ "" = s.
Proof. induction s as [|c s IH]; [reflexivity|]. rewrite append_cons. now rewrite IH. Qed.

(** X20: [heartbeat] sends one GET to the base URL itself, with nothing
    appended; it returns [int] of the value under [nanosecond heartbeat]
    and raises KeyError for that key when the response dict lacks it. *)
Theorem heartbeat_reads_the_beat (w : World) (items : list (string * PyVal)) :
  _running w = true ->
  replies w "get" "" None None (PDict items) ->
  let r := the_request w "get" "" None None in
  req_url r = _api_url w
  /\ heartbeat w
     = (match dict_lookup "nanosecond heartbeat" items with
        | Some beat => py_int beat
        | None => Raise (KeyError "nanosecond heartbeat")
        end, after_request r w)
  /\ wire (after_request r w) = r :: wire w.
Proof.
  intros Hr Hrep. cbn zeta. split; [apply append_empty|].
  split; [|apply after_request_frame].
  unfold heartbeat. rewrite gate_running by exact Hr.
  unfold bind at 1. rewrite make_request_eq. cbn [encoded]. cbn zeta.
  rewrite (replies_outcome _ _ _ _ _ _ Hrep). unfold bind, lift, getitem.
  now destruct (dict_lookup "nanosecond heartbeat" items).
Qed.

(** ** The cached maximum across operations *)

Lemma keeps_ret {A} (a : A) : keeps_cache (ret a).
Proof. intros w _. cbn. split; [reflexivity|]. split; [reflexivity|]. now exists []. Qed.

Lemma keeps_raise {A} (e : Exn) : keeps_cache (@raise _ A e).
Proof. intros w _. cbn. split; [reflexivity|]. split; [reflexivity|]. now exists []. Qed.

Lemma keeps_lift {A} (r : Result A) : keeps_cache (lift r).
Proof. intros w _. cbn. split; [reflexivity|]. split; [reflexivity|]. now exists []. Qed.

Lemma keeps_gets {A} (f : World -> A) : keeps_cache (gets f).
Proof. intros w _. cbn. split; [reflexivity|]. split; [reflexivity|]. now exists []. Qed.

Lemma keeps_gate : keeps_cache _raise_for_running.
Proof.
  intros w _. unfold _raise_for_running, bind, gets, ret, raise. cbn [fst snd].
  destruct (_running w); cbn; (split; [reflexivity|]); (split; [reflexivity|]);
    now exists [].
Qed.

Lemma keeps_bind {A B} (m : M A) (k : A -> M B) :
  keeps_cache m -> (forall a, keeps_cache (k a)) -> keeps_cache (bind m k).
Proof.
  intros Hm Hk w Hc. unfold bind. destruct (Hm w Hc) as (Hmax & Hurl & new1 & Hw1 & Hall1).
  destruct (m w) as [[a|e] w1]; cbn [snd] in *.
  - assert (Hc1 : py_eq_minus_one (_max_batch_size w1) = false) by now rewrite Hmax.
    destruct (Hk a w1 Hc1) as (Hmax2 & Hurl2 & new2 & Hw2 & Hall2).
    split; [congruence|]. split; [congruence|].
    exists (new2 ++ new1). split; [now rewrite Hw2, Hw1, app_assoc|].
    apply Forall_app. split; [|exact Hall1].
    eapply Forall_impl; [exact Hall2|]. intros r Hr. unfold is_fetch in *.
    now rewrite <- Hurl.
  - split; [exact Hmax|]. split; [exact Hurl|]. now exists new1.
Qed.

Lemma keeps_mapM_lift {A B} (f : A -> Result B) (l : list A) :
  keeps_cache (mapM (fun a => lift (f a)) l).
Proof.
  induction l as [|a l IH]; cbn [mapM]; [apply keeps_ret|].
  apply keeps_bind; [apply keeps_lift|]. intros b.
  apply keeps_bind; [exact IH|]. intros bs. apply keeps_ret.
Qed.

(** A dispatch is no fetch unless it is a GET to the pre-flight path: the
    encoding of the path loses nothing. *)
Lemma keeps_make_request (method path : string) (json : option PyVal)
    (params : option Params) :
  (method = "get" -> path <> "/pre-flight-checks") ->
  keeps_cache (_make_request method path json params).
Proof.
  intros Hside w _. rewrite make_request_eq.
  destruct (encoded json) as [content|]; cbn [snd].
  - destruct (after_request_frame (the_request w method path params content) w)
      as (_ & Hm & _ & Hu & _ & _ & Hw). cbn zeta in *.
    split; [exact Hm|]. split; [exact Hu|].
    exists [the_request w method path params content]. split; [exact Hw|].
    constructor; [|constructor]. intros [Hmethod Hurl].
    cbn [the_request req_method req_url] in *.
    apply String.app_inj in Hurl.
    change "/pre-flight-checks" with (quote "/pre-flight-checks" "/") in Hurl.
    apply (f_equal unquote) in Hurl. rewrite !unquote_quote in Hurl.
    now apply Hside.
  - split; [reflexivity|]. split; [reflexivity|]. now exists [].
Qed.

Lemma keeps_get_max_batch_size : keeps_cache get_max_batch_size.
Proof.
  intros w Hc.
  assert (Hsame : snd (get_max_batch_size w) = w).
  { destruct (_running w) eqn:Hr.
    - now rewrite get_max_batch_size_cached by assumption.
    - unfold get_max_batch_size.
      match goal with |- snd (bind _ ?k w) = w =>
        pose proof (gate_stopped (k tt) w Hr) as Hf end.
      unfold fails_fast in Hf. now rewrite Hf. }
  rewrite Hsame. split; [reflexivity|]. split; [reflexivity|]. now exists [].
Qed.

Lemma uuid_str_is_no_path (u : UUID) (suffix : string) :
  uuid_str u +:+ suffix <> "/pre-flight-checks".
Proof.
  intros Heq.
  pose proof (plain_uuid_str u) as Hplain.
  assert (Hsafe : forallb always_safe (list_ascii_of_string (uuid_str u)) = true).
  { unfold uuid_str. cbn zeta.
    repeat (apply safe_append;
            [first [apply safe_substring, safe_hex_lower | reflexivity]|]).
    apply safe_substring, safe_hex_lower. }
  assert (Hlen : String.length (uuid_str u) <> O).
  { unfold uuid_str. cbn zeta. rewrite !length_append. cbn [String.length]. lia. }
  destruct (uuid_str u) as [|c rest]; [now apply Hlen|].
  rewrite append_cons in Heq. injection Heq as -> _.
  cbn [list_ascii_of_string forallb] in Hsafe. discriminate Hsafe.
Qed.

Lemma uuid_str_is_no_fetch_path (u : UUID) : uuid_str u <> "/pre-flight-checks".
Proof. rewrite <- (append_empty (uuid_str u)). apply uuid_str_is_no_path. Qed.

Ltac no_fetch_path :=
  let Hm := fresh "Hm" in
  let Hp := fresh "Hp" in
  intros Hm;
  first [ discriminate Hm
        | intros Hp; cbv [String.append] in Hp; discriminate Hp
        | apply uuid_str_is_no_fetch_path ].

Ltac kept :=
  lazymatch goal with
  | |- keeps_cache (bind _ _) => apply keeps_bind; [kept | intros ?; kept]
  | |- keeps_cache (ret _) => apply keeps_ret
  | |- keeps_cache (raise _) => apply keeps_raise
  | |- keeps_cache (lift _) => apply keeps_lift
  | |- keeps_cache (gets _) => apply keeps_gets
  | |- keeps_cache _raise_for_running => apply keeps_gate
  | |- keeps_cache get_max_batch_size => apply keeps_get_max_batch_size
  | |- keeps_cache (mapM _ _) => apply keeps_mapM_lift
  | |- keeps_cache (_make_request _ _ _ _) => apply keeps_make_request; no_fetch_path
  | |- keeps_cache (match ?x with _ => _ end) => destruct x; kept
  end.

Lemma keeps_perform (op : Operation) : keeps_cache (perform op).
Proof.
  destruct op; cbn [perform].
  - unfold heartbeat. kept.
  - unfold create_database. kept.
  - unfold get_database. kept.
  - unfold create_tenant. kept.
  - unfold get_tenant. kept.
  - unfold list_collections. kept.
  - unfold count_collections. kept.
  - unfold create_collection. kept.
  - unfold get_collection. cbn zeta.
    destruct name as [n|], id as [u|]; cbn [truthy_str str_opt_uuid];
      try destruct (String.eqb n ""); cbn [negb]; kept.
  - unfold get_or_create_collection, create_collection. kept.
  - unfold _modify. kept.
  - unfold delete_collection. kept.
  - unfold _count. kept.
  - unfold _peek, _get. kept.
  - unfold _get. kept.
  - unfold _delete. kept.
  - unfold _submit_batch. destruct batch as [[[[ids e] md] d] u]. kept.
  - destruct c; cbn [invoke]; [unfold _add | unfold _update | unfold _upsert];
      unfold _submit_batch; cbn zeta; kept.
  - unfold _query. kept.
  - unfold reset. kept.
  - unfold get_version. kept.
  - kept.
  - unfold get_settings. kept.
Qed.

Lemma session_cached (ops : list Operation) (w : World) :
  py_eq_minus_one (_max_batch_size w) = false ->
  _max_batch_size (session ops w) = _max_batch_size w
  /\ _api_url (session ops w) = _api_url w
  /\ exists new,
       wire (session ops w) = new ++ wire w /\ Forall (fun r => ~ is_fetch w r) new.
Proof.
  revert w. induction ops as [|op ops IH]; intros w Hc; cbn [session].
  - split; [reflexivity|]. split; [reflexivity|]. now exists [].
  - destruct (keeps_perform op w Hc) as (Hmax & Hurl & new1 & Hw1 & Hall1).
    assert (Hc1 : py_eq_minus_one (_max_batch_size (snd (perform op w))) = false)
      by now rewrite Hmax.
    destruct (IH _ Hc1) as (Hmax2 & Hurl2 & new2 & Hw2 & Hall2).
    split; [congruence|]. split; [congruence|].
    exists (new2 ++ new1). split; [now rewrite Hw2, Hw1, app_assoc|].
    apply Forall_app. split; [|exact Hall1].
    eapply Forall_impl; [exact Hall2|]. intros r Hr. unfold is_fetch in *.
    now rewrite <- Hurl.
Qed.

Lemma invoke_cached (c : BatchCall) (w : World) :
  _running w = true -> py_eq_minus_one (_max_batch_size w) = false ->
  invoke c w =
  (lift (validate_batch (batch_of c) [("max_batch_size", _max_batch_size w)]) ;;
   _submit_batch (batch_of c) (submit_path c) ;;
   ret true) w.
Proof.
  intros Hr Hc. rewrite invoke_unfold by exact Hr.
  unfold bind at 1. now rewrite get_max_batch_size_cached by assumption.
Qed.

Lemma get_max_batch_size_unfetched (w : World) :
  _running w = true -> py_eq_minus_one (_max_batch_size w) = true ->
  let fetch := the_request w "get" "/pre-flight-checks" None None in
  let w1 := snd (get_max_batch_size w) in
  wire w1 = fetch :: wire w /\ _running w1 = true /\ _api_url w1 = _api_url w
  /\ (forall e, fst (get_max_batch_size w) = Raise e ->
        _max_batch_size w1 = _max_batch_size w)
  /\ (forall v, fst (get_max_batch_size w) = Ok v -> _max_batch_size w1 = v).
Proof.
  intros Hr Hc. cbn zeta. rewrite get_max_batch_size_fetch by assumption. cbn zeta.
  destruct (after_request_frame (the_request w "get" "/pre-flight-checks" None None) w)
    as (Hrun & Hm & _ & Hu & _ & _ & Hw). cbn zeta in *.
  destruct (and_then _ _) as [v|e]; cbn [fst snd].
  - split; [exact Hw|]. split; [now rewrite <- Hr|]. split; [exact Hu|].
    split; [discriminate|]. now intros v' [= <-].
  - split; [exact Hw|]. split; [now rewrite <- Hr|]. split; [exact Hu|].
    split; [now intros|discriminate].
Qed.

(** C4 (amended): on a running client, a call of [get_max_batch_size] made
    while the cached value equals -1 always issues one GET request to the
    pre-flight endpoint; when the server answers it with a value the call
    stores and returns that value, and when the fetch fails nothing is
    stored.  While the cache still equals -1 afterwards (a failed fetch, or
    a server value of -1) the next call fetches again.  Once a call has
    returned a value other than -1, the value stays cached through every
    operation of the client, every later call returns it and issues no
    request, whether it is made directly or inside add, update or upsert,
    and no operation sends a fetch to the pre-flight endpoint again.  No
    call ever issues more than the one pre-flight request. *)
Theorem max_batch_size_is_fetched_once (w : World) (n : nat) (ops : list Operation) :
  _running w = true ->
  let fetch := the_request w "get" "/pre-flight-checks" None None in
  (py_eq_minus_one (_max_batch_size w) = false ->
     calls n w = (repeat (Ok (_max_batch_size w)) n, w))
  /\ (forall resp_json v,
        py_eq_minus_one (_max_batch_size w) = true ->
        replies w "get" "/pre-flight-checks" None None resp_json ->
        getitem resp_json "max_batch_size" = Ok v ->
        get_max_batch_size w = (Ok v, with_max_batch_size v (after_request fetch w))
        /\ wire (with_max_batch_size v (after_request fetch w)) = fetch :: wire w)
  /\ (forall v w',
        get_max_batch_size w = (Ok v, w') -> py_eq_minus_one v = false ->
        calls n w' = (repeat (Ok v) n, w'))
  /\ (wire (snd (get_max_batch_size w)) = wire w
      \/ wire (snd (get_max_batch_size w)) = fetch :: wire w)
  /\ (py_eq_minus_one (_max_batch_size w) = true ->
      let w1 := snd (get_max_batch_size w) in
      is_fetch w fetch
      /\ wire w1 = fetch :: wire w
      /\ _running w1 = true
      /\ (forall e, fst (get_max_batch_size w) = Raise e ->
            _max_batch_size w1 = _max_batch_size w)
      /\ (forall v, fst (get_max_batch_size w) = Ok v -> _max_batch_size w1 = v)
      /\ (py_eq_minus_one (_max_batch_size w1) = true ->
          wire (snd (get_max_batch_size w1))
          = the_request w1 "get" "/pre-flight-checks" None None :: fetch :: wire w))
  /\ (forall v w',
        get_max_batch_size w = (Ok v, w') -> py_eq_minus_one v = false ->
        let w'' := session ops w' in
        _running w'' = true
        /\ _max_batch_size w'' = v
        /\ calls n w'' = (repeat (Ok v) n, w'')
        /\ (forall c,
              invoke c w''
              = (lift (validate_batch (batch_of c) [("max_batch_size", v)]) ;;
                 _submit_batch (batch_of c) (submit_path c) ;;
                 ret true) w'')
        /\ exists new,
             wire w'' = new ++ wire w' /\ Forall (fun r => ~ is_fetch w r) new).
Proof.
  intros Hr. cbn zeta. split; [|split; [|split; [|split; [|split]]]].
  - intros Hc. now apply calls_cached.
  - intros resp_json v Hc Hrep Hv.
    exact (get_max_batch_size_fetched w resp_json v Hr Hc Hrep Hv).
  - intros v w' Hcall Hv. apply get_max_batch_size_post in Hcall as [Hr' <-].
    now apply calls_cached.
  - destruct (py_eq_minus_one (_max_batch_size w)) eqn:Hc.
    + right. rewrite get_max_batch_size_fetch by assumption. cbn zeta.
      now destruct (and_then _ _).
    + left. now rewrite get_max_batch_size_cached by assumption.
  - intros Hc.
    destruct (get_max_batch_size_unfetched w Hr Hc) as (Hw1 & Hr1 & _ & Hfail & Hok).
    cbn zeta in *.
    split; [split; reflexivity|]. split; [exact Hw1|]. split; [exact Hr1|].
    split; [exact Hfail|]. split; [exact Hok|]. intros Hc1.
    destruct (get_max_batch_size_unfetched _ Hr1 Hc1) as (Hw2 & _). cbn zeta in Hw2.
    now rewrite Hw2, Hw1.
  - intros v w' Hcall Hv.
    destruct (behaves_get_max_batch_size w) as [(_ & _ & Hu & _) _].
    rewrite Hcall in Hu. cbn [snd] in Hu.
    apply get_max_batch_size_post in Hcall as [Hr' Hmax].
    assert (Hc' : py_eq_minus_one (_max_batch_size w') = false) by now rewrite Hmax.
    destruct (session_cached ops w' Hc') as (Hmax'' & _ & new & Hw'' & Hall).
    destruct (behaves_session ops w') as [(Hr'' & _) _].
    assert (Hrun : _running (session ops w') = true) by congruence.
    assert (Hcached : _max_batch_size (session ops w') = v) by congruence.
    split; [exact Hrun|]. split; [exact Hcached|]. split; [|split].
    + rewrite <- Hcached. apply calls_cached; [exact Hrun | now rewrite Hcached].
    + intros c. rewrite <- Hcached. apply invoke_cached; [exact Hrun | now rewrite Hcached].
    + exists new. split; [exact Hw''|].
      eapply Forall_impl; [exact Hall|]. intros r Hnf. unfold is_fetch in *.
      now rewrite <- Hu.
Qed.

End Further.

(** * Further scenarios against the scripted server *)

Ltac stub_replies :=
  eexists; split; [vm_compute; reflexivity | split; vm_compute; reflexivity].

(** X3 at a client that has opened a connection, left its [async with]
    block, which closed the connection, and then sends a count and a version
    request: connection 0 is closed and both requests go over the new
    connection 1. *)
Lemma requests_go_over_open_connections_witness :
  let script := [(200, PInt 3); (200, PStr "1.0")] in
  let w := snd (__aexit__ (snd (__aenter__ (Stub.world script)))) in
  let ops := [@CountCollections (Stub.external script) "default_tenant" "default_database";
              GetVersion] in
  conn_ok w
  /\ aclosed w = [0%nat]
  /\ conn_ok (session ops w)
  /\ aclosed (session ops w) = [0%nat]
  /\ map req_client (wire (session ops w)) = [1%nat; 1%nat]
  /\ exists new, wire (session ops w) = new ++ wire w
                 /\ Forall (fun r => ~ In (req_client r) (aclosed (session ops w))) new.
Proof.
  cbn zeta.
  assert (Hok : conn_ok (snd (__aexit__
                               (snd (__aenter__
                                       (Stub.world [(200, PInt 3); (200, PStr "1.0")])))))).
  { apply (conn_ok_cleanup
             (snd (__aenter__ (Stub.world [(200, PInt 3); (200, PStr "1.0")])))).
    apply (conn_ok_get_client (Stub.world [(200, PInt 3); (200, PStr "1.0")])).
    apply conn_ok_init; reflexivity. }
  split; [exact Hok|]. split; [vm_compute; reflexivity|].
  destruct (requests_go_over_open_connections
              [@CountCollections (Stub.external [(200, PInt 3); (200, PStr "1.0")])
                 "default_tenant" "default_database"; GetVersion] _ Hok)
    as (Hok' & Hnew).
  split; [exact Hok'|]. split; [vm_compute; reflexivity|].
  split; [vm_compute; reflexivity | exact Hnew].
Defined.

(** X4 at a client that has opened its connection. *)
Lemma close_closes_every_connection_witness :
  let w := snd (__aenter__ (Stub.world [])) in
  conn_ok w
  /\ _clients (snd (close w)) = ∅
  /\ In 0%nat (aclosed (snd (close w)))
  /\ wire (snd (close w)) = [].
Proof.
  cbn zeta.
  assert (Hok : conn_ok (snd (__aenter__ (Stub.world [])))).
  { apply (conn_ok_get_client (Stub.world [])). apply conn_ok_init; reflexivity. }
  split; [exact Hok|].
  destruct (close_closes_every_connection _ Hok) as (_ & Hempty & Hall & _ & Hwire & Hheap).
  split; [exact Hempty|]. split; [|exact Hwire].
  apply Hall. rewrite Hheap. vm_compute. lia.
Defined.

(** X7 at two collection names that differ in a reserved character. *)
Lemma distinct_paths_have_distinct_urls_witness :
  unquote (quote "/collections/a b?c" "/") = "/collections/a b?c"
  /\ (quote "/collections/a?b" "/" = quote "/collections/a%3Fb" "/" -> False).
Proof.
  destruct (distinct_paths_have_distinct_urls (Stub.world []) "get" "get"
              "/collections/a b?c" "/collections/a b?c" None None None None)
    as (Hround & _).
  destruct (distinct_paths_have_distinct_urls (Stub.world []) "get" "get"
              "/collections/a?b" "/collections/a%3Fb" None None None None)
    as (_ & Hinj & _).
  split; [exact Hround|]. intros Heq. apply Hinj in Heq. discriminate Heq.
Defined.

(** X8 at [get(limit=5, offset=3, page=2)] with no page size. *)
Lemma get_ignores_incomplete_paging_witness :
  let w := Stub.world [(200, PDict [("ids", PList [])])] in
  (Some 2 = @None Z \/ @None Z = None \/ Some 2 = Some 0 \/ @None Z = Some 0)
  /\ _get Stub.some_id None (PDict []) None (Some 5) (Some 3) (Some 2) None (PDict [])
       ["documents"] w
     = _get Stub.some_id None (PDict []) None (Some 5) (Some 3) None None (PDict [])
         ["documents"] w.
Proof.
  cbn zeta. split; [right; left; reflexivity|].
  apply (get_ignores_incomplete_paging
           (Stub.world [(200, PDict [("ids", PList [])])]) Stub.some_id None (PDict [])
           None (Some 5) (Some 3) (Some 2) None (PDict []) ["documents"]).
  right. left. reflexivity.
Defined.

(** X9 at a response with the embeddings and no ids. *)
Lemma results_need_the_ids_witness :
  let resp_json := PDict [("embeddings", PList [])] in
  let w := Stub.world [(200, resp_json)] in
  _running w = true
  /\ fst (_get Stub.some_id None (PDict []) None None None None None (PDict [])
            ["embeddings"] w) = Raise (KeyError "ids")
  /\ length (wire (snd (_get Stub.some_id None (PDict []) None None None None None
                          (PDict []) ["embeddings"] w))) = 1%nat.
Proof.
  cbn zeta. split; [reflexivity|].
  edestruct (results_need_the_ids
               (Stub.world [(200, PDict [("embeddings", PList [])])]) Stub.some_id
               (PDict []) (PDict []) ["embeddings"]
               (Stub.render (_get_json None (PDict []) None None None (PDict [])
                               ["embeddings"]))
               (PDict [("embeddings", PList [])]) eq_refl) as (Hget & _).
  { intros items [= <-]. reflexivity. }
  rewrite (Hget None None None None None None eq_refl); [|stub_replies].
  split; reflexivity.
Defined.

(** X11 at a pre-flight answer that is an empty dict. *)
Lemma preflight_without_the_maximum_witness :
  let script := [(200, PDict [])] in
  let w := Stub.world script in
  let c := @CallAdd (Stub.external script) ["a"] Stub.some_id [PList []] None None None in
  _running w = true
  /\ py_eq_minus_one (_max_batch_size w) = true
  /\ dict_lookup "max_batch_size" [] = None
  /\ fst (get_max_batch_size w) = Raise (KeyError "max_batch_size")
  /\ fst (invoke c w) = Raise (KeyError "max_batch_size")
  /\ _max_batch_size (snd (get_max_batch_size w)) = PInt (-1).
Proof.
  cbn zeta. split; [reflexivity|]. split; [reflexivity|]. split; [reflexivity|].
  destruct (preflight_without_the_maximum (Stub.world [(200, PDict [])]) []
              eq_refl eq_refl) as (Hcall & Hmax & _ & Hinvoke).
  - stub_replies.
  - reflexivity.
  - rewrite Hcall, Hinvoke. cbn [fst snd]. rewrite Hmax. repeat split.
Defined.

(** X12 at an add whose embeddings do not match the ids, the maximum being
    cached. *)
Lemma invalid_batch_is_not_submitted_witness :
  let script := [(200, PNone)] in
  let w := with_max_batch_size (PInt 10) (Stub.world script) in
  let c := @CallAdd (Stub.external script) ["a"; "b"] Stub.some_id [PList []] None None
             None in
  _running w = true
  /\ py_eq_minus_one (_max_batch_size w) = false
  /\ invoke c w = (Raise (ValueError "Length of embeddings is 1, expected 2"), w).
Proof.
  cbn zeta. split; [reflexivity|]. split; [reflexivity|].
  apply invalid_batch_is_not_submitted; reflexivity.
Defined.

(** X13 at an upsert of two records, the maximum being cached. *)
Lemma valid_batch_is_submitted_once_witness :
  let script := [(200, PBool true)] in
  let w := with_max_batch_size (PInt 10) (Stub.world script) in
  let c := @CallUpsert (Stub.external script) Stub.some_id ["a"; "b"]
             [PList [PInt 1]; PList [PInt 2]] None None None in
  _running w = true
  /\ py_eq_minus_one (_max_batch_size w) = false
  /\ validate_batch (batch_of c) [("max_batch_size", _max_batch_size w)] = Ok tt
  /\ fst (invoke c w) = Ok true
  /\ map (fun r => (req_method r, req_url r)) (wire (snd (invoke c w)))
     = [("post",
         "http://localhost:8000/api/v1/collections/00000000-0000-0000-0000-00000000002a/upsert")].
Proof.
  cbn zeta. split; [reflexivity|]. split; [reflexivity|]. split; [reflexivity|].
  edestruct (valid_batch_is_submitted_once
               (@CallUpsert (Stub.external [(200, PBool true)]) Stub.some_id ["a"; "b"]
                  [PList [PInt 1]; PList [PInt 2]] None None None)
               (with_max_batch_size (PInt 10) (Stub.world [(200, PBool true)]))
               (Stub.render
                  (batch_json (["a"; "b"], Some [PList [PInt 1]; PList [PInt 2]], None, None,
                               None)))
               eq_refl eq_refl eq_refl eq_refl) as (Hcall & Hwire & Htrue).
  split.
  - apply (Htrue (PBool true)). vm_compute. reflexivity.
  - rewrite Hcall. cbn [snd]. rewrite Hwire. vm_compute. reflexivity.
Defined.

(** X14 at the first add of a client, the server advertising 100. *)
Lemma first_batch_fetches_then_submits_witness :
  let script := [(200, PDict [("max_batch_size", PInt 100)]); (200, PBool true)] in
  let w := Stub.world script in
  let c := @CallAdd (Stub.external script) ["a"] Stub.some_id [PList [PInt 1]] None None
             None in
  _running w = true
  /\ py_eq_minus_one (_max_batch_size w) = true
  /\ validate_batch (batch_of c) [("max_batch_size", PInt 100)] = Ok tt
  /\ map req_method (wire (snd (invoke c w))) = ["post"; "get"]
  /\ _max_batch_size (snd (invoke c w)) = PInt 100.
Proof.
  cbn zeta. split; [reflexivity|]. split; [reflexivity|]. split; [reflexivity|].
  edestruct (first_batch_fetches_then_submits
               (@CallAdd (Stub.external [(200, PDict [("max_batch_size", PInt 100)]);
                                         (200, PBool true)])
                  ["a"] Stub.some_id [PList [PInt 1]] None None None)
               (Stub.world [(200, PDict [("max_batch_size", PInt 100)]); (200, PBool true)])
               (Stub.render (batch_json (["a"], Some [PList [PInt 1]], None, None, None)))
               (PDict [("max_batch_size", PInt 100)]) (PInt 100) eq_refl eq_refl)
    as (post & Hwire & Hmethod & _ & _ & _ & Hmax).
  - stub_replies.
  - reflexivity.
  - reflexivity.
  - reflexivity.
  - split; [|exact Hmax]. rewrite Hwire. cbn [map]. rewrite Hmethod. reflexivity.
Defined.

(** X15 at [get_collection(name="my docs")] and at the empty name. *)
Lemma get_collection_by_name_witness :
  let w := Stub.world [(200, PDict [("name", PStr "my docs")])] in
  _running w = true
  /\ map req_url (wire (snd (get_collection (Some "my docs") None "default_tenant"
                               "default_database" w)))
     = ["http://localhost:8000/api/v1/collections/my%20docs"]
  /\ map req_url (wire (snd (get_collection (Some "") None "default_tenant"
                               "default_database" w)))
     = ["http://localhost:8000/api/v1None"].
Proof.
  cbn zeta. split; [reflexivity|]. split.
  - destruct (get_collection_by_name
                (Stub.world [(200, PDict [("name", PStr "my docs")])]) "my docs"
                "default_tenant" "default_database" eq_refl) as (Hcall & Hwire).
    rewrite Hcall. cbn [snd]. rewrite Hwire. reflexivity.
  - destruct (get_collection_by_name
                (Stub.world [(200, PDict [("name", PStr "my docs")])]) ""
                "default_tenant" "default_database" eq_refl) as (Hcall & Hwire).
    rewrite Hcall. cbn [snd]. rewrite Hwire. reflexivity.
Defined.

(** X16 at a database response without the tenant. *)
Lemma reads_take_their_fields_from_the_response_witness :
  let items := [("id", PStr "7"); ("name", PStr "db")] in
  let w := Stub.world [(200, PDict items)] in
  _running w = true
  /\ fst (get_database "db" "default_tenant" w) = Raise (KeyError "tenant")
  /\ fst (get_tenant "db" w) = Ok {| tenant_name := PStr "db" |}.
Proof.
  cbn zeta. split; [reflexivity|].
  destruct (reads_take_their_fields_from_the_response
              (Stub.world [(200, PDict [("id", PStr "7"); ("name", PStr "db")])])
              "db" "default_tenant" [("id", PStr "7"); ("name", PStr "db")] eq_refl)
    as (Hdb & Htenant).
  split.
  - rewrite Hdb; [reflexivity | stub_replies].
  - rewrite Htenant; [reflexivity | stub_replies].
Defined.

(** X17 at a reset whose answer is a string. *)
Lemma plain_reads_return_the_body_witness :
  let w := Stub.world [(200, PStr "done")] in
  _running w = true
  /\ fst (reset w) = Ok (PStr "done")
  /\ fst (_count Stub.some_id w) = Ok (PStr "done")
  /\ map req_url (wire (snd (_count Stub.some_id w)))
     = ["http://localhost:8000/api/v1/collections/00000000-0000-0000-0000-00000000002a/count"].
Proof.
  cbn zeta. split; [reflexivity|].
  destruct (plain_reads_return_the_body (Stub.world [(200, PStr "done")]) (PStr "done")
              eq_refl) as (_ & Hcount & Hreset & _).
  split; [rewrite Hreset; reflexivity|].
  destruct (Hcount Stub.some_id) as (_ & Hc).
  rewrite Hc by reflexivity. split; reflexivity.
Defined.

(** X18 at a response of two collections. *)
Lemma list_collections_maps_the_response_witness :
  let resp_json := [PDict [("name", PStr "a")]; PDict [("name", PStr "b")]] in
  let w := Stub.world [(200, PList resp_json)] in
  _running w = true
  /\ fst (list_collections None (Some 5) "default_tenant" "default_database" w)
     = Ok resp_json
  /\ map req_params
       (wire (snd (list_collections None (Some 5) "default_tenant" "default_database" w)))
     = [Some [("tenant", PStr "default_tenant"); ("database", PStr "default_database");
              ("offset", PInt 5)]].
Proof.
  cbn zeta. split; [reflexivity|].
  edestruct (list_collections_maps_the_response
               (Stub.world [(200, PList [PDict [("name", PStr "a")];
                                         PDict [("name", PStr "b")]])])
               None (Some 5) "default_tenant" "default_database"
               [PDict [("name", PStr "a")]; PDict [("name", PStr "b")]] eq_refl)
    as (Hok & _).
  - stub_replies.
  - rewrite (Hok [PDict [("name", PStr "a")]; PDict [("name", PStr "b")]]).
    + split; reflexivity.
    + repeat constructor.
Defined.

(** X19 at a database creation that the server answers with a number. *)
Lemma writes_drop_the_response_witness :
  let w := Stub.world [(200, PInt 7)] in
  _running w = true
  /\ create_database "db" "default_tenant" w
     = (Ok tt, snd (create_database "db" "default_tenant" w))
  /\ map req_method (wire (snd (create_database "db" "default_tenant" w))) = ["post"].
Proof.
  cbn zeta. split; [reflexivity|].
  destruct (writes_drop_the_response (Stub.world [(200, PInt 7)]) eq_refl) as (Hdb & _).
  rewrite (Hdb "db" "default_tenant" (Stub.render (PDict [("name", PStr "db")])) eq_refl).
  split; reflexivity.
Defined.

(** X20 at the heartbeat of the server. *)
Lemma heartbeat_reads_the_beat_witness :
  let items := [("nanosecond heartbeat", PInt 12345)] in
  let w := Stub.world [(200, PDict items)] in
  _running w = true
  /\ fst (heartbeat w) = Ok 12345
  /\ map req_url (wire (snd (heartbeat w))) = ["http://localhost:8000/api/v1"].
Proof.
  cbn zeta. split; [reflexivity|].
  destruct (heartbeat_reads_the_beat
              (Stub.world [(200, PDict [("nanosecond heartbeat", PInt 12345)])])
              [("nanosecond heartbeat", PInt 12345)] eq_refl) as (_ & Hcall & _).
  - stub_replies.
  - rewrite Hcall. split; reflexivity.
Defined.

(** C4 at a client whose server advertises 100: the first call fetches, and
    after an add, a collection creation and a further call (three more
    operations, two more requests) the value is still cached and three more
    calls return it; the one GET on the wire is the first fetch. *)
Lemma max_batch_size_is_fetched_once_witness :
  let script := [(200, PDict [("max_batch_size", PInt 100)]); (200, PBool true);
                 (200, PDict [("name", PStr "docs")])] in
  let w := Stub.world script in
  let cached := with_max_batch_size (PInt 100) w in
  let ops := [Mutate (@CallAdd (Stub.external script) ["a"] Stub.some_id [PList [PInt 1]]
                        None None None);
              @CreateCollection (Stub.external script) "docs" None None false
                "default_tenant" "default_database";
              GetMaxBatchSize] in
  _running w = true
  /\ calls 3 cached = ([Ok (PInt 100); Ok (PInt 100); Ok (PInt 100)], cached)
  /\ (exists w', get_max_batch_size w = (Ok (PInt 100), w')
                 /\ map req_method (wire w') = ["get"]
                 /\ calls 3 w' = ([Ok (PInt 100); Ok (PInt 100); Ok (PInt 100)], w')
                 /\ _max_batch_size (session ops w') = PInt 100
                 /\ calls 3 (session ops w')
                    = ([Ok (PInt 100); Ok (PInt 100); Ok (PInt 100)], session ops w')
                 /\ map req_method (wire (session ops w')) = ["post"; "post"; "get"]
                 /\ exists new, wire (session ops w') = new ++ wire w'
                                /\ Forall (fun r => ~ is_fetch w r) new).
Proof.
  cbn zeta. split; [reflexivity|].
  pose (script := [(200, PDict [("max_batch_size", PInt 100)]); (200, PBool true);
                   (200, PDict [("name", PStr "docs")])]).
  pose (ops := [Mutate (@CallAdd (Stub.external script) ["a"] Stub.some_id
                          [PList [PInt 1]] None None None);
                @CreateCollection (Stub.external script) "docs" None None false
                  "default_tenant" "default_database";
                GetMaxBatchSize]).
  split.
  - destruct (max_batch_size_is_fetched_once
                (with_max_batch_size (PInt 100) (Stub.world script)) 3 ops eq_refl)
      as (Hcached & _).
    exact (Hcached eq_refl).
  - destruct (max_batch_size_is_fetched_once (Stub.world script) 3 ops eq_refl)
      as (_ & Hfetch & Hlater & _ & _ & Hsession).
    destruct (Hfetch (PDict [("max_batch_size", PInt 100)]) (PInt 100)) as [Hcall Hwire].
    + reflexivity.
    + eexists. split; [reflexivity|]. split; reflexivity.
    + reflexivity.
    + destruct (Hsession _ _ Hcall eq_refl) as (_ & Hmax & Hcalls & _ & Hnew).
      eexists. split; [exact Hcall|].
      split; [exact (f_equal (map req_method) Hwire)|].
      split; [exact (Hlater _ _ Hcall eq_refl)|]. split; [exact Hmax|].
      split; [exact Hcalls|]. split; [vm_compute; reflexivity | exact Hnew].
Defined.
